(** * toot-relay: the Web Push to APNs relay (toot-relay.go)

    A shallow embedding of [encode85], [parseKeyValues], [encodedValue] and
    [handler], together with the parts of Go's standard library they call,
    and the properties of the relay stated over that embedding.

    Go values are modelled as follows.
    - [string]: a Rocq [string] (a sequence of 8-bit characters, as a Go
      string is a sequence of bytes).
    - [[]byte]: [list byte].
    - [int], [uint32]: [Z]; the wrap-around of [int] is written out where the
      code multiplies a value ([wrap64]); lengths are mathematical integers.
    - [map[string]string], [http.Header], the payload's custom fields:
      [gmap string string].
    - a run-time panic (index out of range): the [Panic] case of [Result]. *)

From Stdlib Require Import ZArith Strings.Byte Strings.Ascii Strings.String.
From stdpp Require Import gmap strings list pretty.

Open Scope Z_scope.

(** ** Computations that may panic *)

Inductive panic : Type :=
  | IndexOutOfRange (i length : Z)
  | SliceBoundsOutOfRange (low length : Z).

Inductive Result (A : Type) : Type :=
  | Ok (a : A)
  | Panic (p : panic).
Arguments Ok {A} a.
Arguments Panic {A} p.

#[global] Instance Result_ret : MRet Result := @Ok.
#[global] Instance Result_bind : MBind Result := fun A B f m =>
  match m with
  | Ok a => f a
  | Panic p => Panic p
  end.

(** [len s] for a slice. *)
Definition len {A} (l : list A) : Z := Z.of_nat (length l).

(** [s[i]]: the bounds check and the read. *)
Definition index {A} (l : list A) (i : Z) : Result A :=
  if (0 <=? i) && (i <? len l) then
    match l !! Z.to_nat i with
    | Some x => Ok x
    | None => Panic (IndexOutOfRange i (len l))
    end
  else Panic (IndexOutOfRange i (len l)).

(** [s[low:]]. *)
Definition slice_from {A} (l : list A) (low : Z) : Result (list A) :=
  if (0 <=? low) && (low <=? len l) then Ok (drop (Z.to_nat low) l)
  else Panic (SliceBoundsOutOfRange low (len l)).

(** A slice of the array [arr] that starts at offset [off] of it and runs to
    its end: [dest] in [encode85] is such a view of [encodedBytes], so a
    write through [dest] is a write into [encodedBytes]. *)
Definition store {A} (arr : list A) (off j : Z) (x : A) : Result (list A) :=
  if (0 <=? j) && (j <? len arr - off) then Ok (<[Z.to_nat (off + j) := x]> arr)
  else Panic (IndexOutOfRange j (len arr - off)).

(** [for i := i0; i < i0 + n; i++ { s = body i s }]. *)
Fixpoint for_range {S : Type} (n : nat) (i : Z) (body : Z -> S -> Result S) (s : S)
  : Result S :=
  match n with
  | O => Ok s
  | Datatypes.S n' => s' ← body i s; for_range n' (i + 1) body s'
  end.

(** Go's [int] on a 64-bit platform: two's complement wrap-around. *)
Definition wrap64 (x : Z) : Z := (x + 2 ^ 63) mod 2 ^ 64 - 2 ^ 63.

(** [int(b)], [uint32(b)] for a byte [b]. *)
Definition byte_val (b : byte) : Z := Z.of_N (Byte.to_N b).

(** ** encoding/binary *)

(** [binary.BigEndian.Uint32(b)]: [_ = b[3]], then
    [uint32(b[3]) | uint32(b[2])<<8 | uint32(b[1])<<16 | uint32(b[0])<<24]. *)
Definition BigEndian_Uint32 (b : list byte) : Result Z :=
  _ ← index b 3;
  b3 ← index b 3; b2 ← index b 2; b1 ← index b 1; b0 ← index b 0;
  Ok (Z.lor (Z.lor (Z.lor (byte_val b3) (Z.shiftl (byte_val b2) 8))
                   (Z.shiftl (byte_val b1) 16))
            (Z.shiftl (byte_val b0) 24)).

(** ** The Z85-style encoder (toot-relay.go, lines 189-231) *)

Definition z85digits : list byte :=
  list_byte_of_string
    "0123456789abcdefghijklmnopqrstuvwxyzABCDEFGHIJKLMNOPQRSTUVWXYZ.-:+=^!/*?&<>()[]{}@%$#".

(** One turn of a digit loop,
    [dest[top-i] = z85digits[value%85]; value /= 85],
    where [dest] is the view of [encodedBytes] from offset [dest]. The
    quotient and remainder are those of the type of [value]: [uint32] in the
    block loop, [int] (truncating) in the suffix loop. *)
Definition emit (quo rem : Z -> Z -> Z) (dest top : Z) (i : Z) (st : Z * list byte)
  : Result (Z * list byte) :=
  let '(value, encodedBytes) := st in
  d ← index z85digits (rem value 85);
  encodedBytes ← store encodedBytes dest (top - i) d;
  Ok (quo value 85, encodedBytes).

(** The body of the block loop (lines 205-213); the state is [src], the
    offset of [dest] in [encodedBytes], and [encodedBytes]. *)
Definition encode_block (block : Z) (st : list byte * Z * list byte)
  : Result (list byte * Z * list byte) :=
  let '(src, dest, encodedBytes) := st in
  value ← BigEndian_Uint32 src;
  '(_, encodedBytes) ← for_range 5 0 (emit Z.div Z.modulo dest 4) (value, encodedBytes);
  src ← slice_from src 4;
  _ ← (if 5 <=? len encodedBytes - dest then Ok tt
       else Panic (SliceBoundsOutOfRange 5 (len encodedBytes - dest)));
  Ok (src, dest + 5, encodedBytes).

(** The body of the loop that reads the suffix (lines 220-221):
    [value *= 256; value |= int(src[i])]. *)
Definition read_suffix (src : list byte) (i : Z) (value : Z) : Result Z :=
  let value := wrap64 (value * 256) in
  b ← index src i;
  Ok (Z.lor value (byte_val b)).

Definition encode85 (bytes : list byte) : Result string :=
  let numBlocks := Z.quot (len bytes) 4 in
  let suffixLength := Z.rem (len bytes) 4 in
  let encodedLength := numBlocks * 5 in
  let encodedLength :=
    if suffixLength =? 0 then encodedLength else encodedLength + (suffixLength + 1) in
  let encodedBytes := replicate (Z.to_nat encodedLength) x00 in
  '(src, dest, encodedBytes) ←
    for_range (Z.to_nat numBlocks) 0 encode_block (bytes, 0, encodedBytes);
  encodedBytes ←
    (if suffixLength =? 0 then Ok encodedBytes
     else
       value ← for_range (Z.to_nat suffixLength) 0 (read_suffix src) 0;
       '(_, encodedBytes) ←
         for_range (Z.to_nat (suffixLength + 1)) 0
           (emit Z.quot Z.rem dest suffixLength) (value, encodedBytes);
       Ok encodedBytes);
  Ok (string_of_list_byte encodedBytes).

(** *** The encoder as the specification words it *)

(** The digit for a value below 85. *)
Definition digit (d : Z) : byte := default x00 (z85digits !! Z.to_nat d).

(** [n] digits of [v] in base 85: take [v mod 85], divide [v] by 85, and
    place what was computed last first. *)
Fixpoint digits85 (n : nat) (v : Z) : list byte :=
  match n with
  | O => []
  | S n' => digits85 n' (v / 85) ++ [digit (v mod 85)]
  end.

(** The big-endian unsigned integer that the bytes [bs] spell. *)
Definition be_value (bs : list byte) : Z :=
  fold_left (fun acc b => acc * 256 + byte_val b) bs 0.

(** Full 4-byte blocks give 5 digits each, a tail of [k] bytes (not padded)
    gives [k + 1] digits, and nothing is left of an empty tail. *)
Fixpoint encode85_spec (bytes : list byte) : list byte :=
  match bytes with
  | b0 :: b1 :: b2 :: b3 :: rest =>
      digits85 5 (be_value [b0; b1; b2; b3]) ++ encode85_spec rest
  | [] => []
  | tail => digits85 (S (length tail)) (be_value tail)
  end.

(** ** strings *)

(** [strings.Split(s, sep)] for a separator [sep] of one byte, the only kind
    the relay uses: the pieces of [s] between the occurrences of [sep], one
    more than there are occurrences. *)
Fixpoint strings_Split (s : string) (sep : ascii) : list string :=
  match s with
  | EmptyString => [EmptyString]
  | String c s' =>
      if Ascii.eqb c sep then EmptyString :: strings_Split s' sep
      else
        match strings_Split s' sep with
        | part :: parts => String c part :: parts
        | [] => [String c EmptyString]
        end
  end.

(** [strings.Join(elems, sep)]. *)
Fixpoint strings_Join (elems : list string) (sep : string) : string :=
  match elems with
  | [] => EmptyString
  | [e] => e
  | e :: rest => e +:+ sep +:+ strings_Join rest sep
  end.

(** [strings.FieldsFunc(s, f)] as the library runs it: [field] is the field
    being read ([None] between fields), closed at each character that
    satisfies [f]. Go calls [f] on code points; a byte that is [;] is the
    code point [;] and no other byte sequence decodes to it, so for the
    relay's [f] reading bytes is the same. *)
Fixpoint FieldsFunc_from (f : ascii -> bool) (s : string) (field : option string)
  : list string :=
  match s with
  | EmptyString =>
      match field with
      | Some e => [e]
      | None => []
      end
  | String c s' =>
      if f c then
        match field with
        | Some e => e :: FieldsFunc_from f s' None
        | None => FieldsFunc_from f s' None
        end
      else FieldsFunc_from f s' (Some (default EmptyString field +:+ String c EmptyString))
  end.

Definition strings_FieldsFunc (s : string) (f : ascii -> bool) : list string :=
  FieldsFunc_from f s None.

(** ** errors, strconv, encoding/base64, time *)

(** A Go [error], as the text its [Error] method gives. *)
Definition error : Type := string.

Definition is_digit (c : ascii) : bool :=
  (48 <=? Z.of_N (N_of_ascii c)) && (Z.of_N (N_of_ascii c) <=? 57).

Fixpoint parse_digits (s : string) (n : Z) : option Z :=
  match s with
  | EmptyString => Some n
  | String c s' =>
      if is_digit c then parse_digits s' (n * 10 + (Z.of_N (N_of_ascii c) - 48))
      else None
  end.

(** [strconv.Atoi(s)] where [int] has 64 bits: an optional sign and one or
    more decimal digits, in the range of [int]; [None] stands for a result
    with [err != nil]. *)
Definition strconv_Atoi (s : string) : option Z :=
  match s with
  | EmptyString => None
  | String c s' =>
      let '(neg, ds) :=
        if Ascii.eqb c "-" then (true, s')
        else if Ascii.eqb c "+" then (false, s')
        else (false, s) in
      match ds with
      | EmptyString => None
      | _ =>
          match parse_digits ds 0 with
          | None => None
          | Some n =>
              let v := if neg then - n else n in
              if (- 2 ^ 63 <=? v) && (v <=? 2 ^ 63 - 1) then Some v else None
          end
      end
  end.

(** The decode map of [base64.URLEncoding]. *)
Definition decodeMap (c : ascii) : option Z :=
  let n := Z.of_N (N_of_ascii c) in
  if (65 <=? n) && (n <=? 90) then Some (n - 65)
  else if (97 <=? n) && (n <=? 122) then Some (n - 97 + 26)
  else if (48 <=? n) && (n <=? 57) then Some (n - 48 + 52)
  else if n =? 45 then Some 62
  else if n =? 95 then Some 63
  else None.

Definition byte_of_Z (z : Z) : byte := default x00 (Byte.of_N (Z.to_N (z mod 256))).

(** The bytes of one quantum read into [dbuf] (2 to 4 six-bit values): as
    many bytes as values, less one. The encoding is not strict, so the bits
    left over are dropped. *)
Definition quantum (dbuf : list Z) : list byte :=
  let val := Z.lor (Z.lor (Z.lor (Z.shiftl (dbuf !!! 0%nat) 18) (Z.shiftl (dbuf !!! 1%nat) 12))
                          (Z.shiftl (dbuf !!! 2%nat) 6)) (dbuf !!! 3%nat) in
  take (length dbuf - 1)
    [byte_of_Z (Z.shiftr val 16); byte_of_Z (Z.shiftr val 8); byte_of_Z val].

Definition CorruptInputError (at_byte : Z) : error :=
  "illegal base64 data at input byte " +:+ pretty at_byte.

(** [base64.RawURLEncoding.DecodeString] (no padding, not strict): [si] is
    the number of bytes read, [dbuf] the values of the quantum being read and
    [dst] the bytes decoded so far. A carriage return or a line feed is
    skipped; any other byte outside the alphabet, the padding character
    included, is an error, and so is a last quantum of one character. *)
Fixpoint DecodeString_from (s : string) (si : Z) (dbuf : list Z) (dst : list byte)
  : list byte * option error :=
  match s with
  | EmptyString =>
      match dbuf with
      | [] => (dst, None)
      | [_] => (dst, Some (CorruptInputError (si - 1)))
      | _ => (dst ++ quantum dbuf, None)
      end
  | String c s' =>
      let si := si + 1 in
      match decodeMap c with
      | Some out =>
          let dbuf := dbuf ++ [out] in
          if (length dbuf =? 4)%nat then DecodeString_from s' si [] (dst ++ quantum dbuf)
          else DecodeString_from s' si dbuf dst
      | None =>
          if Ascii.eqb c "010" || Ascii.eqb c "013" then DecodeString_from s' si dbuf dst
          else (dst, Some (CorruptInputError (si - 1)))
      end
  end.

Definition base64_RawURLEncoding_DecodeString (s : string) : list byte * option error :=
  DecodeString_from s 0 [] [].

(** [time.Duration(ttl) * time.Second], an [int64] number of nanoseconds. *)
Definition seconds_Duration (ttl : Z) : Z := wrap64 (ttl * 1000000000).

(** ** net/http, apns2 *)

(** [request.URL.Path], [request.Header] and the bytes of [request.Body].
    A header is its first value under the name the handler asks for (the
    canonical form on both sides). *)
Record Request : Type := {
  URL_Path : string;
  Header : gmap string string;
  Body : list byte
}.

(** [header.Get(name)]: the empty string when the header is absent. *)
Definition Header_Get (header : gmap string string) (name : string) : string :=
  default EmptyString (header !! name).

(** [payload.Payload]: the [aps] dictionary and the other keys of the
    content map. *)
Record Payload : Type := {
  aps_Alert : string;
  aps_MutableContent : Z;
  aps_ContentAvailable : Z;
  content : gmap string string
}.

Definition NewPayload : Payload :=
  {| aps_Alert := EmptyString; aps_MutableContent := 0; aps_ContentAvailable := 0;
     content := ∅ |}.
Definition Alert (alert : string) (p : Payload) : Payload :=
  {| aps_Alert := alert; aps_MutableContent := aps_MutableContent p;
     aps_ContentAvailable := aps_ContentAvailable p; content := content p |}.
Definition MutableContent (p : Payload) : Payload :=
  {| aps_Alert := aps_Alert p; aps_MutableContent := 1;
     aps_ContentAvailable := aps_ContentAvailable p; content := content p |}.
Definition ContentAvailable (p : Payload) : Payload :=
  {| aps_Alert := aps_Alert p; aps_MutableContent := aps_MutableContent p;
     aps_ContentAvailable := 1; content := content p |}.
Definition Custom (key val : string) (p : Payload) : Payload :=
  {| aps_Alert := aps_Alert p; aps_MutableContent := aps_MutableContent p;
     aps_ContentAvailable := aps_ContentAvailable p; content := <[key := val]> (content p) |}.

Definition PriorityLow : Z := 5.
Definition PriorityHigh : Z := 10.

(** [apns2.Notification] as [client.Push] receives it. [Expiration] is
    [None] while it holds the zero time, and a number of nanoseconds once
    set. [notification.Payload] is a pointer to the payload, so what
    [payload.Custom] adds after line 81 is in it: [Payload] is the payload
    object as it is when the notification is pushed. *)
Record Notification : Type := {
  DeviceToken : string;
  Topic : string;
  CollapseID : string;
  Expiration : option Z;
  Priority : Z;
  Payload_of : Payload
}.

(** [apns2.Response]. *)
Record Response : Type := {
  StatusCode : Z;
  ApnsID : string;
  Reason : string
}.

(** [res.Sent()]. *)
Definition Sent (res : Response) : bool := StatusCode res =? 200.

(** What a call of [handler] leaves: the status given to
    [writer.WriteHeader], the [Location] header, the text written to
    [writer], and the notification handed to [client.Push], if the call got
    that far. Logging is left out. *)
Record Outcome : Type := {
  status : Z;
  location : option string;
  body : string;
  pushed : option Notification
}.

Definition reply (code : Z) (text : string) : Outcome :=
  {| status := code; location := None; body := text; pushed := None |}.

(** The line feed that [fmt.Fprintln] ends its output with. *)
Definition nl : string := String "010" EmptyString.

(** The alert text, a trumpet (U+1F3BA) in UTF-8. *)
Definition alert_text : string :=
  String "240" (String "159" (String "142" (String "186" EmptyString))).

(** ** The relay (toot-relay.go, lines 59-187) *)

(** The loop of [parseKeyValues] (lines 181-184). *)
Fixpoint parseKeyValues_entries (entries : list string) (m : gmap string string)
  : Result (gmap string string) :=
  match entries with
  | [] => Ok m
  | entry :: entries =>
      let parts := strings_Split entry "=" in
      k ← index parts 0;
      v ← index parts 1;
      parseKeyValues_entries entries (<[k := v]> m)
  end.

Definition parseKeyValues (values : string) : Result (gmap string string) :=
  let f := fun c : ascii => Ascii.eqb c ";" in
  let entries := strings_FieldsFunc values f in
  parseKeyValues_entries entries ∅.

Definition encodedValue (header : gmap string string) (name key : string)
  : Result (string * option error) :=
  keyValues ← parseKeyValues (Header_Get header name);
  match keyValues !! key with
  | None => Ok (EmptyString, Some ("Value " +:+ key +:+ " not found in header " +:+ name))
  | Some value =>
      match base64_RawURLEncoding_DecodeString value with
      | (_, Some err) => Ok (EmptyString, Some err)
      | (bytes, None) => s ← encode85 bytes; Ok (s, None)
      end
  end.

Section Relay.
  (** [time.Now()], in nanoseconds, and the push client [client.Push]. *)
Variable now : Z.
Variable Push : Notification -> Response * option error.

  (** Lines 111-147: the rest of [handler] once the payload is complete. *)
Definition handler_push (request : Request) (deviceToken : string) (payload : Payload)
    : Outcome :=
    let seconds := Header_Get (Header request) "TTL" in
    let expiration :=
      if decide (seconds = EmptyString) then None
      else
        match strconv_Atoi seconds with
        | Some ttl => Some (now + seconds_Duration ttl)
        | None => None
        end in
    let topic := Header_Get (Header request) "Topic" in
    let urgency := Header_Get (Header request) "Urgency" in
    let priority :=
      if decide (urgency = "very-low") then PriorityLow
      else if decide (urgency = "low") then PriorityLow
      else PriorityHigh in
    let notification :=
      {| DeviceToken := deviceToken; Topic := "dev.noppe.snowfox"; CollapseID := topic;
         Expiration := expiration; Priority := priority; Payload_of := payload |} in
    match Push notification with
    | (_, Some err) =>
        {| status := 500; location := None; body := "Push error: " +:+ err +:+ nl;
           pushed := Some notification |}
    | (res, None) =>
        if Sent res then
          {| status := 201; location := Some ("https://not-supported/" +:+ ApnsID res);
             body := EmptyString; pushed := Some notification |}
        else
          {| status := StatusCode res; location := None; body := Reason res +:+ nl;
             pushed := Some notification |}
    end.

Definition handler (request : Request) : Result Outcome :=
    let components := strings_Split (URL_Path request) "/" in
    if len components <? 3 then
      Ok (reply 500 ("Invalid URL path: " +:+ URL_Path request +:+ nl))
    else
      deviceToken ← index components 2;
      encodedString ← encode85 (Body request);
      let payload :=
        Custom "p" encodedString
          (ContentAvailable (MutableContent (Alert alert_text NewPayload))) in
      payload ←
        (if 3 <? len components then
           rest ← slice_from components 3;
           Ok (Custom "x" (strings_Join rest "/") payload)
         else Ok payload);
      let encoding := Header_Get (Header request) "Content-Encoding" in
      if decide (encoding = "aesgcm") then
        '(publicKey, err) ← encodedValue (Header request) "Crypto-Key" "dh";
        match err with
        | Some err => Ok (reply 500 ("Error retrieving public key: " +:+ err +:+ nl))
        | None =>
            let payload := Custom "k" publicKey payload in
            '(salt, err) ← encodedValue (Header request) "Encryption" "salt";
            match err with
            | Some err => Ok (reply 500 ("Error retrieving salt: " +:+ err +:+ nl))
            | None =>
                let payload := Custom "s" salt payload in
                Ok (handler_push request deviceToken payload)
            end
        end
      else Ok (reply 415 ("Unsupported Content-Encoding: " +:+ encoding +:+ nl)).
End Relay.

(** The pattern under which [main] registers [handler] (line 50): the
    requests the server hands to it are those whose path begins with it. *)
Definition relay_pattern : string := "/relay-to/".
Definition routed (request : Request) : Prop :=
  String.prefix relay_pattern (URL_Path request) = true.

(** *** The header parser as the specification words it *)

(** The text of [s] before its first [c], and the text after it when [s]
    has one. *)
Fixpoint cut (c : ascii) (s : string) : string * option string :=
  match s with
  | EmptyString => (EmptyString, None)
  | String a s' =>
      if Ascii.eqb a c then (EmptyString, Some s')
      else let '(before, after) := cut c s' in (String a before, after)
  end.

(** The fields of a header value: what lies between the [;], the empty
    pieces dropped. *)
Definition fields (values : string) : list string :=
  filter (fun e => e ≠ EmptyString) (strings_Split values ";").

(** Each field split at its first [=]: the key is the text before it and
    the value everything after it. What a field without [=] gives is left
    open by the specification; here it adds nothing. *)
Definition parse_firstEq (values : string) : gmap string string :=
  foldl (fun m e =>
           match cut "=" e with
           | (k, Some v) => <[k := v]> m
           | (_, None) => m
           end) ∅ (fields values).

(** What [parseKeyValues] maps a field with [=] to: the text between its
    first [=] and its second one, or the end of the field. *)
Definition value_of_field (e : string) : string :=
  match cut "=" e with
  | (_, Some after) => (cut "=" after).1
  | (_, None) => EmptyString
  end.

Definition parse_untilEq (values : string) : gmap string string :=
  foldl (fun m e => <[(cut "=" e).1 := value_of_field e]> m) ∅ (fields values).

(** *** Success of the handler's steps, and sample requests *)

(** The sub-field [key] of the header [name] is there and decodes: the
    parser maps [key] to a value, base64url decodes it, and [text] is what
    [encode85] makes of the bytes. *)
Definition sub_field_decodes (header : gmap string string) (name key text : string) : Prop :=
  exists (m : gmap string string) (value : string) (bytes : list byte),
    parseKeyValues (Header_Get header name) = Ok m /\
    m !! key = Some value /\
    base64_RawURLEncoding_DecodeString value = (bytes, None) /\
    encode85 bytes = Ok text.

(** The payload after line 79: alert, flags, [p] and, past three path
    components, [x]. *)
Definition payload_px (request : Request) : Payload :=
  let components := strings_Split (URL_Path request) "/" in
  let payload :=
    Custom "p" (string_of_list_byte (encode85_spec (Body request)))
      (ContentAvailable (MutableContent (Alert alert_text NewPayload))) in
  if 3 <? len components then
    Custom "x" (strings_Join (drop 3 components) "/") payload
  else payload.

(** The notification that lines 69-126 build for a device token and a
    payload. *)
Definition notification_for (now : Z) (request : Request) (deviceToken : string)
    (payload : Payload) : Notification :=
  {| DeviceToken := deviceToken;
     Topic := "dev.noppe.snowfox";
     CollapseID := Header_Get (Header request) "Topic";
     Expiration :=
       (if decide (Header_Get (Header request) "TTL" = EmptyString) then None
        else
          match strconv_Atoi (Header_Get (Header request) "TTL") with
          | Some ttl => Some (now + seconds_Duration ttl)
          | None => None
          end);
     Priority :=
       (if decide (Header_Get (Header request) "Urgency" = "very-low") then PriorityLow
        else if decide (Header_Get (Header request) "Urgency" = "low") then PriorityLow
        else PriorityHigh);
     Payload_of := payload |}.

(** A push client that accepts every notification. *)
Definition push_sent (notification : Notification) : Response * option error :=
  ({| StatusCode := 200; ApnsID := "5C1B0E4F"; Reason := EmptyString |}, None).

(** An [aesgcm] request with the given path, [Crypto-Key] and [Encryption]
    headers, and further headers [more]; the body is the bytes "ABC". *)
Definition aesgcm_request (path cryptoKey encryption : string) (more : gmap string string)
  : Request :=
  {| URL_Path := path;
     Header :=
       <["Content-Encoding" := "aesgcm"]>
         (<["Crypto-Key" := cryptoKey]> (<["Encryption" := encryption]> more));
     Body := [x41; x42; x43] |}.

(** The sub-field [key] of the header [name] as [parseKeyValues] reads it
    where it does not panic: the text from the first [=] of the last field
    for [key] to the next [=] or the end of the field. *)
Definition sub_field (header : gmap string string) (name key : string) : option string :=
  parse_untilEq (Header_Get header name) !! key.

(** Whether the character [c] occurs in [s]. *)
Fixpoint contains (c : ascii) (s : string) : bool :=
  match s with
  | EmptyString => false
  | String a s' => Ascii.eqb a c || contains c s'
  end.

(** *** Auxiliary: the output of the first blocks *)

(** The characters that [m] blocks of [src] give. *)
Fixpoint blocks_out (m : nat) (src : list byte) : list byte :=
  match m, src with
  | S m', b0 :: b1 :: b2 :: b3 :: rest =>
      digits85 5 (be_value [b0; b1; b2; b3]) ++ blocks_out m' rest
  | _, _ => []
  end.

(** * Properties *)

(** ** Run-time checks that pass *)

Lemma index_lookup {A} (l : list A) (i : nat) (x : A) :
  l !! i = Some x -> index l (Z.of_nat i) = Ok x.
Proof.
  intros Hl. unfold index, len.
  pose proof (lookup_lt_Some _ _ _ Hl) as Hlt.
  replace ((0 <=? Z.of_nat i) && (Z.of_nat i <? Z.of_nat (length l))) with true
    by (symmetry; apply andb_true_iff; split; [apply Z.leb_le | apply Z.ltb_lt]; lia).
  rewrite Nat2Z.id, Hl. reflexivity.
Qed.

Lemma index_z85digits (d : Z) :
  0 <= d < 85 -> index z85digits d = Ok (digit d).
Proof.
  intros Hd. rewrite <- (Z2Nat.id d) at 1 by lia.
  apply index_lookup. unfold digit.
  destruct (z85digits !! Z.to_nat d) as [x|] eqn:Hx; [reflexivity|].
  apply lookup_ge_None in Hx.
  assert (length z85digits = 85%nat) as Hlen by reflexivity. lia.
Qed.

Lemma store_middle {A} (pre mid post : list A) (x y : A) :
  store (pre ++ (mid ++ [x]) ++ post) (len pre) (len mid) y
  = Ok (pre ++ (mid ++ [y]) ++ post).
Proof.
  unfold store, len.
  replace ((0 <=? Z.of_nat (length mid))
           && (Z.of_nat (length mid)
               <? Z.of_nat (length (pre ++ (mid ++ [x]) ++ post)) - Z.of_nat (length pre)))
    with true.
  2:{ symmetry. apply andb_true_iff. split; [apply Z.leb_le; lia|].
      apply Z.ltb_lt. rewrite !length_app. simpl. lia. }
  f_equal.
  replace (Z.to_nat (Z.of_nat (length pre) + Z.of_nat (length mid)))
    with (length pre + length mid)%nat by lia.
  rewrite insert_app_r. f_equal.
  rewrite <- !app_assoc.
  replace (length mid) with (length mid + 0)%nat at 1 by lia.
  rewrite insert_app_r. reflexivity.
Qed.

Lemma slice_from_ok {A} (l : list A) (n : nat) :
  (n <= length l)%nat -> slice_from l (Z.of_nat n) = Ok (drop n l).
Proof.
  intros Hn. unfold slice_from, len.
  replace ((0 <=? Z.of_nat n) && (Z.of_nat n <=? Z.of_nat (length l))) with true
    by (symmetry; apply andb_true_iff; split; apply Z.leb_le; lia).
  rewrite Nat2Z.id. reflexivity.
Qed.

(** ** Integers *)

Lemma byte_val_range (b : byte) : 0 <= byte_val b < 256.
Proof.
  unfold byte_val. pose proof (Byte.to_N_bounded b). lia.
Qed.

Lemma wrap64_small (x : Z) : - 2 ^ 63 <= x < 2 ^ 63 -> wrap64 x = x.
Proof.
  intros Hx. unfold wrap64. rewrite Z.mod_small; lia.
Qed.

Lemma testbit_above (b n i : Z) : 0 <= b < 2 ^ n -> n <= i -> Z.testbit b i = false.
Proof.
  intros [Hb0 Hb] Hi.
  destruct (Z.eq_dec b 0) as [->|Hne]; [apply Z.bits_0|].
  apply Z.bits_above_log2; [lia|].
  assert (0 <= n) by (destruct (Z.le_gt_cases 0 n); [easy|]; rewrite Z.pow_neg_r in Hb; lia).
  assert (Z.log2 b < n) by (apply Z.log2_lt_pow2; lia). lia.
Qed.

(** Or-ing a value into the low bits that a shift left has cleared adds it. *)
Lemma lor_shifted (a b n : Z) :
  0 <= n -> 0 <= b < 2 ^ n -> Z.lor (a * 2 ^ n) b = a * 2 ^ n + b.
Proof.
  intros Hn Hb. symmetry. apply Z.add_nocarry_lor.
  apply Z.bits_inj'. intros i Hi.
  rewrite Z.land_spec, Z.bits_0.
  destruct (Z.lt_ge_cases i n).
  - rewrite Z.mul_pow2_bits_low by lia. reflexivity.
  - rewrite (testbit_above b n i) by lia. apply andb_false_r.
Qed.

Lemma be_value_snoc (bs : list byte) (b : byte) :
  be_value (bs ++ [b]) = be_value bs * 256 + byte_val b.
Proof. unfold be_value. rewrite fold_left_app. reflexivity. Qed.

Lemma be_value_range (bs : list byte) : 0 <= be_value bs < 256 ^ len bs.
Proof.
  induction bs as [|b bs IH] using rev_ind; [unfold be_value, len; simpl; lia|].
  rewrite be_value_snoc. unfold len in *. rewrite length_app. simpl.
  replace (Z.of_nat (length bs + 1)) with (Z.succ (Z.of_nat (length bs))) by lia.
  rewrite Z.pow_succ_r by lia.
  pose proof (byte_val_range b). lia.
Qed.

Lemma BigEndian_Uint32_block (b0 b1 b2 b3 : byte) (rest : list byte) :
  BigEndian_Uint32 (b0 :: b1 :: b2 :: b3 :: rest) = Ok (be_value [b0; b1; b2; b3]).
Proof.
  unfold BigEndian_Uint32.
  rewrite (index_lookup _ 3 b3), (index_lookup _ 2 b2), (index_lookup _ 1 b1),
    (index_lookup _ 0 b0) by reflexivity.
  cbn [mbind Result_bind]. f_equal.
  pose proof (byte_val_range b0). pose proof (byte_val_range b1).
  pose proof (byte_val_range b2). pose proof (byte_val_range b3).
  rewrite !Z.shiftl_mul_pow2 by lia.
  rewrite (Z.lor_comm (byte_val b3)), lor_shifted by lia.
  rewrite (Z.lor_comm _ (byte_val b1 * 2 ^ 16)), lor_shifted by lia.
  rewrite (Z.lor_comm _ (byte_val b0 * 2 ^ 24)), lor_shifted by lia.
  unfold be_value. simpl fold_left. lia.
Qed.

(** ** The loops of [encode85] *)

Section DigitLoop.
  (** The division of the type of [value], which is never negative. *)
Variables quo rem : Z -> Z -> Z.
Hypothesis quo_div : forall v, 0 <= v -> quo v 85 = v / 85.
Hypothesis rem_mod : forall v, 0 <= v -> rem v 85 = v mod 85.

Lemma emit_step (i top v : Z) (pre mid post : list byte) (x : byte) :
    0 <= v -> top - i = len mid ->
    emit quo rem (len pre) top i (v, pre ++ (mid ++ [x]) ++ post)
    = Ok (v / 85, pre ++ (mid ++ [digit (v mod 85)]) ++ post).
  Proof.
    intros Hv Htop. unfold emit.
    rewrite rem_mod, quo_div by lia.
    rewrite index_z85digits by (apply Z.mod_pos_bound; lia).
    cbn [mbind Result_bind].
    rewrite Htop, store_middle. reflexivity.
  Qed.

  (** A digit loop of [m] turns fills the [m] bytes of [mid] from the last
      to the first with the digits of [v], the most significant first. *)
Lemma emit_loop (m : nat) :
    forall (i0 top v : Z) (pre mid post : list byte),
      0 <= v -> length mid = m -> top - i0 = Z.of_nat m - 1 ->
      for_range m i0 (emit quo rem (len pre) top) (v, pre ++ mid ++ post)
      = Ok (v / 85 ^ Z.of_nat m, pre ++ digits85 m v ++ post).
  Proof.
    induction m as [|m IH]; intros i0 top v pre mid post Hv Hlen Htop.
    - destruct mid; [|discriminate]. simpl. rewrite Z.div_1_r. reflexivity.
    - destruct (exists_last (l := mid)) as (mid' & x & ->);
        [intros ->; discriminate|].
      rewrite length_app in Hlen. simpl in Hlen.
      cbn [for_range].
      rewrite emit_step by (unfold len; lia).
      cbn [mbind Result_bind].
      rewrite <- (app_assoc mid').
      rewrite (IH (i0 + 1) top (v / 85) pre mid' ([digit (v mod 85)] ++ post))
        by (try apply Z.div_pos; lia).
      f_equal. f_equal.
      + rewrite Nat2Z.inj_succ, Z.pow_succ_r by lia.
        rewrite Z.div_div by lia. reflexivity.
      + cbn [digits85]. rewrite <- (app_assoc (digits85 m (v / 85))). reflexivity.
  Qed.
End DigitLoop.

Lemma digits85_length (n : nat) (v : Z) : length (digits85 n v) = n.
Proof.
  revert v. induction n as [|n IH]; intros v; [reflexivity|].
  cbn [digits85]. rewrite length_app, IH. simpl. lia.
Qed.

Lemma digit_in_alphabet (d : Z) : 0 <= d < 85 -> digit d ∈ z85digits.
Proof.
  intros Hd. unfold digit.
  destruct (z85digits !! Z.to_nat d) as [x|] eqn:Hx.
  - simpl. eapply list_elem_of_lookup_2. exact Hx.
  - apply lookup_ge_None in Hx.
    assert (length z85digits = 85%nat) as Hlen by reflexivity. lia.
Qed.

Lemma digits85_alphabet (n : nat) (v : Z) : Forall (fun c => c ∈ z85digits) (digits85 n v).
Proof.
  revert v. induction n as [|n IH]; intros v; [constructor|].
  cbn [digits85]. apply Forall_app. split; [apply IH|].
  constructor; [|constructor]. apply digit_in_alphabet. apply Z.mod_pos_bound. lia.
Qed.

Lemma read_suffix_step (pre rest : list byte) (b : byte) :
  (length pre <= 6)%nat ->
  read_suffix (pre ++ b :: rest) (len pre) (be_value pre) = Ok (be_value (pre ++ [b])).
Proof.
  intros Hlen. unfold read_suffix.
  pose proof (be_value_range pre) as Hr.
  assert (256 ^ len pre <= 256 ^ 6) as Hp
    by (apply Z.pow_le_mono_r; unfold len; lia).
  rewrite wrap64_small by lia.
  change (len pre) with (Z.of_nat (length pre)).
  rewrite (index_lookup (pre ++ b :: rest) (length pre) b)
    by (rewrite lookup_app_r, Nat.sub_diag by lia; reflexivity).
  cbn [mbind Result_bind].
  change 256 with (2 ^ 8) at 1.
  rewrite lor_shifted by (pose proof (byte_val_range b); lia).
  rewrite be_value_snoc. reflexivity.
Qed.

(** The loop that reads the suffix spells the big-endian value of it. *)
Lemma read_suffix_loop (rest : list byte) :
  forall (pre : list byte),
    (length pre + length rest <= 7)%nat ->
    for_range (length rest) (len pre) (read_suffix (pre ++ rest)) (be_value pre)
    = Ok (be_value (pre ++ rest)).
Proof.
  induction rest as [|b rest IH]; intros pre Hlen.
  - rewrite app_nil_r. reflexivity.
  - cbn [length for_range].
    rewrite read_suffix_step by (simpl in Hlen; lia).
    cbn [mbind Result_bind].
    replace (len pre + 1) with (len (pre ++ [b])) by (unfold len; rewrite length_app; simpl; lia).
    replace (pre ++ b :: rest) with ((pre ++ [b]) ++ rest) by (rewrite <- app_assoc; reflexivity).
    apply IH. rewrite length_app. simpl in *. lia.
Qed.

Lemma blocks_out_length (m : nat) :
  forall src, (4 * m <= length src)%nat -> length (blocks_out m src) = (5 * m)%nat.
Proof.
  induction m as [|m IH]; intros src Hlen; [reflexivity|].
  destruct src as [|b0 [|b1 [|b2 [|b3 rest]]]]; simpl in Hlen; try lia.
  cbn [blocks_out]. rewrite length_app, digits85_length, IH by lia. lia.
Qed.

Lemma encode85_spec_blocks (m : nat) :
  forall src, (4 * m <= length src)%nat ->
    encode85_spec src = blocks_out m src ++ encode85_spec (drop (4 * m) src).
Proof.
  induction m as [|m IH]; intros src Hlen; [reflexivity|].
  destruct src as [|b0 [|b1 [|b2 [|b3 rest]]]]; simpl in Hlen; try lia.
  cbn [blocks_out encode85_spec].
  rewrite (IH rest) by lia. rewrite <- app_assoc.
  replace (4 * S m)%nat with (4 + 4 * m)%nat by lia. reflexivity.
Qed.

(** One turn of the block loop writes the five digits of the block. *)
Lemma encode_block_step (block : Z) (b0 b1 b2 b3 : byte) (rest done : list byte) (n : nat) :
  encode_block block
    (b0 :: b1 :: b2 :: b3 :: rest, len done, done ++ replicate (5 + n) x00)
  = Ok (rest, len done + 5,
        (done ++ digits85 5 (be_value [b0; b1; b2; b3])) ++ replicate n x00).
Proof.
  unfold encode_block.
  rewrite BigEndian_Uint32_block. cbn [mbind Result_bind].
  rewrite replicate_add.
  pose proof (be_value_range [b0; b1; b2; b3]) as Hv.
  rewrite (emit_loop Z.div Z.modulo (fun v _ => eq_refl) (fun v _ => eq_refl) 5 0 4)
    by (try rewrite length_replicate; lia).
  cbn [mbind Result_bind].
  rewrite (slice_from_ok _ 4) by (simpl; lia).
  cbn [mbind Result_bind].
  replace (5 <=? len (done ++ digits85 5 (be_value [b0; b1; b2; b3])
                        ++ replicate n x00) - len done) with true
    by (symmetry; apply Z.leb_le; unfold len;
        rewrite !length_app, digits85_length; lia).
  cbn [mbind Result_bind]. rewrite <- app_assoc. reflexivity.
Qed.

(** The block loop: [m] turns from a state where [done] is written and
    [5 * m + t] bytes are left. *)
Lemma block_loop (m : nat) :
  forall (block0 : Z) (src done : list byte) (t : nat),
    (4 * m <= length src)%nat ->
    for_range m block0 encode_block (src, len done, done ++ replicate (5 * m + t) x00)
    = Ok (drop (4 * m) src, len done + Z.of_nat (5 * m),
          done ++ blocks_out m src ++ replicate t x00).
Proof.
  induction m as [|m IH]; intros block0 src done t Hlen.
  - simpl. rewrite drop_0, Z.add_0_r. reflexivity.
  - destruct src as [|b0 [|b1 [|b2 [|b3 rest]]]]; simpl in Hlen; try lia.
    cbn [for_range].
    replace (5 * S m + t)%nat with (5 + (5 * m + t))%nat by lia.
    rewrite encode_block_step. cbn [mbind Result_bind].
    set (d := digits85 5 (be_value [b0; b1; b2; b3])).
    replace (len done + 5) with (len (done ++ d))
      by (unfold len, d; rewrite length_app, digits85_length; lia).
    rewrite (IH (block0 + 1) rest (done ++ d) t) by lia.
    replace (len (done ++ d) + Z.of_nat (5 * m)) with (len done + Z.of_nat (5 * S m))
      by (unfold len, d; rewrite length_app, digits85_length; lia).
    replace (4 * S m)%nat with (S (S (S (S (4 * m))))) by lia.
    cbn [blocks_out drop]. fold d. rewrite <- !app_assoc. reflexivity.
Qed.

(** A tail of one to three bytes in the words of the specification. *)
Lemma encode85_spec_tail (tail : list byte) :
  (1 <= length tail <= 3)%nat ->
  encode85_spec tail = digits85 (S (length tail)) (be_value tail).
Proof.
  intros Hlen.
  destruct tail as [|b0 [|b1 [|b2 [|b3 rest]]]]; simpl in Hlen; try lia; reflexivity.
Qed.

(** ** The encoder *)

(** [encode85] on [4 * q + k] bytes, [k < 4]: no check fails, and the
    result is the text of the specification. *)
Lemma encode85_run (q k : nat) (bytes : list byte) :
  length bytes = (4 * q + k)%nat -> (k < 4)%nat ->
  encode85 bytes = Ok (string_of_list_byte (encode85_spec bytes)).
Proof.
  intros Hlen Hk. unfold encode85.
  assert (Z.quot (len bytes) 4 = Z.of_nat q) as ->.
  { unfold len. rewrite Z.quot_div_nonneg by lia.
    symmetry. apply (Z.div_unique _ _ _ (Z.of_nat k)); lia. }
  assert (Z.rem (len bytes) 4 = Z.of_nat k) as ->.
  { unfold len. rewrite Z.rem_mod_nonneg by lia.
    symmetry. apply (Z.mod_unique _ _ (Z.of_nat q)); lia. }
  cbv zeta. rewrite !Nat2Z.id.
  set (t := if Z.of_nat k =? 0 then 0%nat else S k).
  replace (Z.to_nat (if Z.of_nat k =? 0 then Z.of_nat q * 5
                     else Z.of_nat q * 5 + (Z.of_nat k + 1)))
    with (5 * q + t)%nat by (unfold t; destruct (Z.of_nat k =? 0); lia).
  pose proof (block_loop q 0 bytes [] t ltac:(lia)) as Hloop.
  cbn [app] in Hloop. change (len (@nil byte)) with 0 in Hloop.
  rewrite Hloop. cbn [mbind Result_bind].
  rewrite (encode85_spec_blocks q bytes) by lia.
  set (src := drop (4 * q) bytes).
  assert (length src = k) as Hsrc by (unfold src; rewrite length_drop; lia).
  unfold t. destruct (Z.eqb_spec (Z.of_nat k) 0) as [Hk0|Hk0].
  - cbn [mbind Result_bind].
    destruct src; [|simpl in Hsrc; lia]. reflexivity.
  - pose proof (read_suffix_loop src [] ltac:(simpl; lia)) as Hread.
    cbn [app] in Hread. change (len (@nil byte)) with 0 in Hread.
    change (be_value []) with 0 in Hread.
    rewrite <- Hsrc, Hread. cbn [mbind Result_bind].
    replace (Z.to_nat (Z.of_nat (length src) + 1)) with (S (length src)) by lia.
    replace (0 + Z.of_nat (5 * q)) with (len (blocks_out q bytes))
      by (unfold len; rewrite blocks_out_length; lia).
    rewrite <- (app_nil_r (replicate (S (length src)) x00)).
    rewrite (emit_loop Z.quot Z.rem).
    + cbn [mbind Result_bind]. rewrite app_nil_r.
      rewrite (encode85_spec_tail src) by lia. reflexivity.
    + intros v Hv. apply Z.quot_div_nonneg; lia.
    + intros v Hv. apply Z.rem_mod_nonneg; lia.
    + apply be_value_range.
    + apply length_replicate.
    + lia.
Qed.

Lemma encode85_total (bytes : list byte) :
  encode85 bytes = Ok (string_of_list_byte (encode85_spec bytes)).
Proof.
  apply (encode85_run (length bytes / 4) (length bytes mod 4)).
  - apply Nat.div_mod_eq.
  - apply Nat.mod_upper_bound. lia.
Qed.

Lemma string_of_list_byte_length (l : list byte) :
  String.length (string_of_list_byte l) = length l.
Proof.
  induction l as [|b l IH]; [reflexivity|].
  cbn [string_of_list_byte List.map string_of_list_ascii String.length length].
  f_equal. exact IH.
Qed.

Lemma encode85_spec_length (q k : nat) (bytes : list byte) :
  length bytes = (4 * q + k)%nat -> (k < 4)%nat ->
  length (encode85_spec bytes) = (5 * q + (if decide (k = 0%nat) then 0 else S k))%nat.
Proof.
  intros Hlen Hk.
  rewrite (encode85_spec_blocks q bytes), length_app, blocks_out_length by lia.
  f_equal.
  assert (length (drop (4 * q) bytes) = k) as Hd by (rewrite length_drop; lia).
  destruct (drop (4 * q) bytes) as [|b0 [|b1 [|b2 [|b3 rest]]]]; simpl in Hd; subst k;
    try lia; cbn [encode85_spec]; rewrite ?digits85_length; reflexivity.
Qed.

Lemma encode85_spec_alphabet (bytes : list byte) :
  Forall (fun c => c ∈ z85digits) (encode85_spec bytes).
Proof.
  assert (forall n bs, (length bs <= n)%nat ->
            Forall (fun c => c ∈ z85digits) (encode85_spec bs)) as H.
  { induction n as [|n IH]; intros bs Hn.
    - destruct bs; [constructor|simpl in Hn; lia].
    - destruct bs as [|b0 [|b1 [|b2 [|b3 rest]]]]; cbn [encode85_spec];
        try apply digits85_alphabet; [constructor|].
      apply Forall_app. split; [apply digits85_alphabet|].
      apply IH. simpl in Hn. lia. }
  apply (H (length bytes)). lia.
Qed.

(** A group of [n] digits holds, at place [j] from the left, the digit of
    weight [85 ^ (n - 1 - j)]: the most significant digit comes first. *)
Lemma digits85_lookup (n : nat) :
  forall (v : Z) (j : nat), (j < n)%nat ->
    digits85 n v !! j = Some (digit ((v / 85 ^ Z.of_nat (n - 1 - j)) mod 85)).
Proof.
  induction n as [|n IH]; intros v j Hj; [lia|].
  cbn [digits85].
  destruct (decide (j = n)) as [->|Hne].
  - rewrite lookup_app_r by (rewrite digits85_length; lia).
    rewrite digits85_length, Nat.sub_diag.
    replace (S n - 1 - n)%nat with 0%nat by lia.
    simpl. rewrite Z.div_1_r. reflexivity.
  - rewrite lookup_app_l by (rewrite digits85_length; lia).
    rewrite IH by lia.
    replace (S n - 1 - j)%nat with (S (n - 1 - j)) by lia.
    rewrite Nat2Z.inj_succ, Z.pow_succ_r, Z.div_div by lia. reflexivity.
Qed.

Lemma be_value_block (b0 b1 b2 b3 : byte) :
  be_value [b0; b1; b2; b3]
  = byte_val b0 * 2 ^ 24 + byte_val b1 * 2 ^ 16 + byte_val b2 * 2 ^ 8 + byte_val b3.
Proof. unfold be_value. simpl fold_left. lia. Qed.

(** C1. For every byte sequence [encode85] returns, without a failed check,
    the text the specification describes ([encode85_spec]): each full block
    of four bytes, read as a big-endian unsigned 32-bit integer, gives five
    characters of the alphabet by repeated mod 85 and div 85, the most
    significant digit first, and a tail of [k] bytes ([k] from 1 to 3), read
    as the big-endian integer of those [k] bytes alone, gives [k + 1]
    characters in the same way. *)
Theorem encode85_follows_spec (bytes : list byte) :
  encode85 bytes = Ok (string_of_list_byte (encode85_spec bytes)).
Proof.
  apply (encode85_run (length bytes / 4) (length bytes mod 4)).
  - apply Nat.div_mod_eq.
  - apply Nat.mod_upper_bound. lia.
Qed.

(** C2. For every byte sequence [encode85] returns a string of characters
    of the 85-character alphabet; [4 * n] bytes give [5 * n] characters,
    [4 * n + k] bytes with [k] from 1 to 3 give [5 * n + k + 1], the length
    is the ceiling of five fourths of the input's, and the empty sequence
    gives the empty string. *)
Theorem encode85_length (bytes : list byte) :
  exists s : string,
    encode85 bytes = Ok s /\
    Forall (fun c => c ∈ z85digits) (list_byte_of_string s) /\
    (forall n : nat, length bytes = (4 * n)%nat -> String.length s = (5 * n)%nat) /\
    (forall n k : nat, (1 <= k <= 3)%nat -> length bytes = (4 * n + k)%nat ->
       String.length s = (5 * n + k + 1)%nat) /\
    (5 * len bytes <= 4 * Z.of_nat (String.length s) < 5 * len bytes + 4) /\
    (bytes = [] -> s = EmptyString).
Proof.
  exists (string_of_list_byte (encode85_spec bytes)).
  split; [apply encode85_total|].
  rewrite list_byte_of_string_of_list_byte, string_of_list_byte_length.
  split; [apply encode85_spec_alphabet|].
  split; [|split; [|split]].
  - intros n Hn. rewrite (encode85_spec_length n 0) by lia. simpl. lia.
  - intros n k Hk Hn. rewrite (encode85_spec_length n k) by lia.
    destruct (decide (k = 0%nat)); lia.
  - pose proof (Nat.div_mod_eq (length bytes) 4) as Hdm.
    pose proof (Nat.mod_upper_bound (length bytes) 4 ltac:(lia)) as Hlt.
    rewrite (encode85_spec_length _ _ bytes Hdm Hlt). unfold len.
    destruct (decide (length bytes mod 4 = 0)%nat); lia.
  - intros ->. reflexivity.
Qed.

(** ** Strings *)

Lemma string_app_nil_l (s : string) : EmptyString +:+ s = s.
Proof. reflexivity. Qed.

Lemma string_app_cons (c : ascii) (s1 s2 : string) :
  String c s1 +:+ s2 = String c (s1 +:+ s2).
Proof. reflexivity. Qed.

Lemma string_app_nil_r (s : string) : s +:+ EmptyString = s.
Proof.
  induction s as [|c s IH]; [reflexivity|].
  change (String c (s +:+ EmptyString) = String c s). congruence.
Qed.

Lemma string_app_assoc (s1 s2 s3 : string) : (s1 +:+ s2) +:+ s3 = s1 +:+ s2 +:+ s3.
Proof.
  induction s1 as [|c s1 IH]; [reflexivity|].
  change (String c ((s1 +:+ s2) +:+ s3) = String c (s1 +:+ s2 +:+ s3)). congruence.
Qed.

Lemma strings_Split_nonempty (s : string) (sep : ascii) :
  exists part parts, strings_Split s sep = part :: parts.
Proof.
  destruct s as [|c s]; cbn [strings_Split]; [eauto|].
  destruct (Ascii.eqb c sep); [eauto|].
  destruct (strings_Split s sep); eauto.
Qed.

Lemma strings_Split_no_sep (s : string) (sep : ascii) :
  contains sep s = false -> strings_Split s sep = [s].
Proof.
  induction s as [|c s IH]; cbn [contains strings_Split]; [reflexivity|].
  intros [Hc Hs]%orb_false_iff. rewrite Hc, (IH Hs). reflexivity.
Qed.

Lemma strings_Split_app (a b : string) (sep : ascii) :
  contains sep a = false ->
  strings_Split (a +:+ String sep b) sep = a :: strings_Split b sep.
Proof.
  induction a as [|c a IH];
    rewrite ?string_app_nil_l, ?string_app_cons; cbn [contains strings_Split].
  - intros _. rewrite Ascii.eqb_refl. reflexivity.
  - intros [Hc Ha]%orb_false_iff. rewrite Hc, (IH Ha). reflexivity.
Qed.

Lemma strings_Join_cons (e part : string) (parts : list string) (sep : string) :
  strings_Join (e :: part :: parts) sep = e +:+ sep +:+ strings_Join (part :: parts) sep.
Proof. reflexivity. Qed.

(** Joining the pieces of a split with the separator gives the string back. *)
Lemma strings_Join_Split (s : string) (sep : ascii) :
  strings_Join (strings_Split s sep) (String sep EmptyString) = s.
Proof.
  induction s as [|c s IH]; cbn [strings_Split]; [reflexivity|].
  destruct (strings_Split_nonempty s sep) as (part & parts & Hs).
  rewrite Hs in *. destruct (Ascii.eqb_spec c sep) as [->|Hne].
  - rewrite strings_Join_cons, IH. reflexivity.
  - destruct parts as [|part' parts].
    + cbn [strings_Join] in *. congruence.
    + rewrite strings_Join_cons in *. rewrite string_app_cons, IH. reflexivity.
Qed.

Lemma prefix_app (p s : string) :
  String.prefix p s = true -> exists rest, s = p +:+ rest.
Proof.
  revert s. induction p as [|c p IH]; intros s.
  - intros _. exists s. reflexivity.
  - destruct s as [|a s]; cbn [String.prefix]; [discriminate|].
    destruct (ascii_dec c a) as [->|]; [|discriminate].
    intros (rest & ->)%IH. exists rest. reflexivity.
Qed.

(** The components of a path under the relay's pattern. *)
Lemma routed_components (request : Request) :
  routed request ->
  exists rest, URL_Path request = relay_pattern +:+ rest /\
    strings_Split (URL_Path request) "/"
    = EmptyString :: "relay-to" :: strings_Split rest "/".
Proof.
  intros (rest & Hp)%prefix_app. exists rest. split; [exact Hp|].
  rewrite Hp. unfold relay_pattern.
  change ("/relay-to/" +:+ rest) with ("" +:+ String "/" ("relay-to" +:+ String "/" rest)).
  rewrite strings_Split_app by reflexivity.
  rewrite strings_Split_app by reflexivity. reflexivity.
Qed.

Lemma routed_len (request : Request) :
  routed request -> 3 <= len (strings_Split (URL_Path request) "/").
Proof.
  intros (rest & _ & ->)%routed_components.
  destruct (strings_Split_nonempty rest "/") as (part & parts & ->).
  unfold len. simpl. lia.
Qed.

(** ** The fields of a header value *)

(** [strings.FieldsFunc] gives the pieces of the split that are not empty;
    the field being read goes before the first piece. *)
Lemma FieldsFunc_from_Split (sep : ascii) (s : string) :
  forall field : option string,
    field <> Some EmptyString ->
    FieldsFunc_from (fun c => Ascii.eqb c sep) s field
    = filter (fun e => e ≠ EmptyString)
        match strings_Split s sep with
        | part :: parts => (default EmptyString field +:+ part) :: parts
        | [] => []
        end.
Proof.
  induction s as [|c s IH]; intros field Hfield; cbn [FieldsFunc_from strings_Split].
  - rewrite string_app_nil_r.
    destruct field as [e|]; cbn [default].
    + rewrite filter_cons_True by (intros He; apply Hfield; f_equal; exact He). reflexivity.
    + rewrite filter_cons_False by (intros H; apply H; reflexivity). reflexivity.
  - destruct (strings_Split_nonempty s sep) as (part & parts & Hs).
    destruct (Ascii.eqb c sep).
    + rewrite string_app_nil_r, (IH None) by discriminate.
      rewrite Hs. cbn [default]. rewrite string_app_nil_l.
      destruct field as [e|]; cbn [default].
      * rewrite (filter_cons_True _ e) by (intros He; apply Hfield; f_equal; exact He).
        reflexivity.
      * rewrite (filter_cons_False _ EmptyString) by (intros H; apply H; reflexivity).
        reflexivity.
    + rewrite IH by (destruct field as [[|]|]; discriminate).
      rewrite Hs. cbn [default]. unfold id. rewrite string_app_assoc. reflexivity.
Qed.

Lemma strings_FieldsFunc_fields (values : string) :
  strings_FieldsFunc values (fun c => Ascii.eqb c ";") = fields values.
Proof.
  unfold strings_FieldsFunc, fields.
  rewrite FieldsFunc_from_Split by discriminate.
  destruct (strings_Split_nonempty values ";") as (part & parts & ->). reflexivity.
Qed.

(** ** Splitting a field at [=] *)

Lemma cut_contains (c : ascii) (s : string) :
  (cut c s).2 = None <-> contains c s = false.
Proof.
  induction s as [|a s IH]; cbn [cut contains]; [tauto|].
  destruct (Ascii.eqb a c); cbn [orb fst snd].
  - split; discriminate.
  - destruct (cut c s) as [before after]. exact IH.
Qed.

Lemma strings_Split_cut (s : string) (sep : ascii) :
  strings_Split s sep
  = (cut sep s).1 :: match (cut sep s).2 with
                     | Some after => strings_Split after sep
                     | None => []
                     end.
Proof.
  induction s as [|c s IH]; cbn [cut strings_Split]; [reflexivity|].
  destruct (Ascii.eqb c sep); [reflexivity|].
  rewrite IH. destruct (cut sep s) as [before after]. reflexivity.
Qed.

(** The two parts that [parseKeyValues] reads of a field with [=]. *)
Lemma entry_parts (e : string) :
  contains "=" e = true ->
  index (strings_Split e "=") 0 = Ok (cut "=" e).1 /\
  index (strings_Split e "=") 1 = Ok (value_of_field e).
Proof.
  intros He. unfold value_of_field.
  rewrite (strings_Split_cut e).
  destruct (cut "=" e) as [before [after|]] eqn:Hcut.
  - cbn [fst snd]. rewrite (strings_Split_cut after).
    split; [apply (index_lookup _ 0) | apply (index_lookup _ 1)]; reflexivity.
  - pose proof (proj1 (cut_contains "=" e)) as Hc. rewrite Hcut in Hc.
    rewrite Hc in He by reflexivity. discriminate.
Qed.

(** A field without [=] has one part, and reading the second one fails. *)
Lemma entry_second_part_missing (e : string) :
  contains "=" e = false ->
  index (strings_Split e "=") 0 = Ok e /\
  index (strings_Split e "=") 1 = Panic (IndexOutOfRange 1 1).
Proof.
  intros He. rewrite strings_Split_no_sep by exact He. split; reflexivity.
Qed.

Lemma parseKeyValues_entries_ok (entries : list string) :
  forall m : gmap string string,
    Forall (fun e => contains "=" e = true) entries ->
    parseKeyValues_entries entries m
    = Ok (foldl (fun m e => <[(cut "=" e).1 := value_of_field e]> m) m entries).
Proof.
  induction entries as [|e entries IH]; intros m Hall; [reflexivity|].
  inversion Hall as [|? ? He Hrest]; subst.
  cbn [parseKeyValues_entries foldl].
  destruct (entry_parts e He) as [-> ->]. cbn [mbind Result_bind].
  apply IH. exact Hrest.
Qed.

Lemma parseKeyValues_entries_panic (entries : list string) :
  forall m : gmap string string,
    Exists (fun e => contains "=" e = false) entries ->
    parseKeyValues_entries entries m = Panic (IndexOutOfRange 1 1).
Proof.
  induction entries as [|e entries IH]; intros m Hex; [inversion Hex|].
  cbn [parseKeyValues_entries].
  destruct (contains "=" e) eqn:He.
  - destruct (entry_parts e He) as [-> ->]. cbn [mbind Result_bind].
    apply IH. inversion Hex as [? ? Hhd|? ? Htl]; subst; [congruence|exact Htl].
  - destruct (entry_second_part_missing e He) as [-> ->]. reflexivity.
Qed.

(** ** The header parser *)

Lemma cut_no_sep (c : ascii) (s : string) :
  contains c s = false -> cut c s = (s, None).
Proof.
  induction s as [|a s IH]; cbn [cut contains]; [reflexivity|].
  intros [Ha Hs]%orb_false_iff. rewrite Ha, (IH Hs). reflexivity.
Qed.

Lemma parseKeyValues_ok (values : string) :
  Forall (fun e => contains "=" e = true) (fields values) ->
  parseKeyValues values = Ok (parse_untilEq values).
Proof.
  intros Hall. unfold parseKeyValues, parse_untilEq.
  rewrite strings_FieldsFunc_fields. apply parseKeyValues_entries_ok. exact Hall.
Qed.

Lemma parseKeyValues_panic (values : string) :
  Exists (fun e => contains "=" e = false) (fields values) ->
  parseKeyValues values = Panic (IndexOutOfRange 1 1).
Proof.
  intros Hex. unfold parseKeyValues.
  rewrite strings_FieldsFunc_fields. apply parseKeyValues_entries_panic. exact Hex.
Qed.

(** C4, as amended. Where every field between the [;] that is not empty has
    an [=], [parseKeyValues] maps the text before the first [=] of each field
    to the text between that [=] and the next one, or the end of the field
    (a later field wins over an earlier one with the same key); for a field
    with no further [=] that is all that follows the first one. The
    value "dh=AAA;salt=BBB" gives dh = AAA and salt = BBB, and the empty
    value gives the empty map. *)
Theorem parseKeyValues_value_until_next_eq :
  (forall values : string,
     Forall (fun e => contains "=" e = true) (fields values) ->
     parseKeyValues values
     = Ok (foldl (fun m e => <[(cut "=" e).1 := value_of_field e]> m) ∅ (fields values)))
  /\ (forall e k v : string,
        cut "=" e = (k, Some v) -> contains "=" v = false -> value_of_field e = v)
  /\ parseKeyValues "dh=AAA;salt=BBB" = Ok {["dh" := "AAA"; "salt" := "BBB"]}
  /\ parseKeyValues "" = Ok ∅.
Proof.
  split; [exact parseKeyValues_ok|]. split; [|split].
  - intros e k v Hcut Hv. unfold value_of_field.
    rewrite Hcut, (cut_no_sep _ _ Hv). reflexivity.
  - vm_compute. reflexivity.
  - vm_compute. reflexivity.
Qed.

(** The parser of C4 at a value whose fields all have an [=]. *)
Lemma parseKeyValues_value_until_next_eq_witness :
  parseKeyValues "dh=AAA;salt=BBB" = Ok (parse_untilEq "dh=AAA;salt=BBB").
Proof.
  apply (proj1 parseKeyValues_value_until_next_eq "dh=AAA;salt=BBB").
  vm_compute. repeat constructor.
Defined.

(** C4 as stated fails: of the field "dh=AAA=" the parser keeps AAA, not
    everything after the first [=]. *)
Lemma parseKeyValues_not_first_eq :
  parseKeyValues "dh=AAA=;salt=BBB" = Ok {["dh" := "AAA"; "salt" := "BBB"]}
  /\ parse_firstEq "dh=AAA=;salt=BBB" = {["dh" := "AAA="; "salt" := "BBB"]}
  /\ parseKeyValues "dh=AAA=;salt=BBB" <> Ok (parse_firstEq "dh=AAA=;salt=BBB").
Proof.
  split; [vm_compute; reflexivity|]. split; [vm_compute; reflexivity|].
  intros H.
  apply (f_equal (fun r => match r with Ok m => m !! "dh" | Panic _ => None end)) in H.
  vm_compute in H. discriminate H.
Qed.

(** C10. A header value with a field, between the [;] and not empty, that
    has no [=] makes [parseKeyValues] read a second part that is not there:
    it panics with an index out of range. *)
Theorem parseKeyValues_index_out_of_range (values e : string) :
  e ∈ fields values -> contains "=" e = false ->
  parseKeyValues values = Panic (IndexOutOfRange 1 1).
Proof.
  intros Hin He. apply parseKeyValues_panic.
  apply Exists_exists. exists e. split; assumption.
Qed.

Lemma parseKeyValues_index_out_of_range_dh :
  parseKeyValues "dh" = Panic (IndexOutOfRange 1 1).
Proof.
  apply (parseKeyValues_index_out_of_range "dh" "dh").
  - vm_compute. constructor.
  - reflexivity.
Defined.

(** ** The handler, branch by branch *)

Lemma encodedValue_decodes (header : gmap string string) (name key text : string) :
  encodedValue header name key = Ok (text, None) <-> sub_field_decodes header name key text.
Proof.
  unfold encodedValue, sub_field_decodes. split.
  - destruct (parseKeyValues (Header_Get header name)) as [m|p]; [|discriminate].
    cbn [mbind Result_bind].
    destruct (m !! key) as [value|] eqn:Hkey; [|discriminate].
    destruct (base64_RawURLEncoding_DecodeString value) as [bytes [err|]] eqn:Hdec;
      [discriminate|].
    rewrite encode85_total. cbn [mbind Result_bind]. intros [= <-].
    exists m, value, bytes. rewrite encode85_total. auto.
  - intros (m & value & bytes & Hm & Hkey & Hdec & Henc).
    rewrite Hm. cbn [mbind Result_bind]. rewrite Hkey, Hdec, Henc. reflexivity.
Qed.

Lemma handler_push_pushed (now : Z) (Push : Notification -> Response * option error)
    (request : Request) (deviceToken : string) (payload : Payload) :
  pushed (handler_push now Push request deviceToken payload)
  = Some (notification_for now request deviceToken payload).
Proof.
  unfold handler_push. fold (notification_for now request deviceToken payload).
  destruct (Push _) as [res [err|]]; [reflexivity|].
  destruct (Sent res); reflexivity.
Qed.

Section Branches.
Variable now : Z.
Variable Push : Notification -> Response * option error.
Variable request : Request.

Local Abbreviation components := (strings_Split (URL_Path request) "/").
Local Abbreviation encoding := (Header_Get (Header request) "Content-Encoding").

Lemma handler_invalid_path :
    len components < 3 ->
    handler now Push request
    = Ok (reply 500 ("Invalid URL path: " +:+ URL_Path request +:+ nl)).
  Proof.
    intros Hlen. unfold handler. cbv zeta.
    destruct (Z.ltb_spec (len components) 3); [reflexivity|lia].
  Qed.

  (** Lines 60-82 when the path has its three components. *)
Lemma handler_from_switch (deviceToken : string) :
    components !! 2%nat = Some deviceToken ->
    handler now Push request
    = (if decide (encoding = "aesgcm") then
         '(publicKey, err) ← encodedValue (Header request) "Crypto-Key" "dh";
         match err with
         | Some err => Ok (reply 500 ("Error retrieving public key: " +:+ err +:+ nl))
         | None =>
             '(salt, err) ← encodedValue (Header request) "Encryption" "salt";
             match err with
             | Some err => Ok (reply 500 ("Error retrieving salt: " +:+ err +:+ nl))
             | None =>
                 Ok (handler_push now Push request deviceToken
                       (Custom "s" salt (Custom "k" publicKey (payload_px request))))
             end
         end
       else Ok (reply 415 ("Unsupported Content-Encoding: " +:+ encoding +:+ nl))).
  Proof.
    intros Htarget. pose proof (lookup_lt_Some _ _ _ Htarget) as Hlen.
    unfold handler, payload_px. cbv zeta.
    destruct (Z.ltb_spec (len components) 3) as [Hlt|_]; [unfold len in Hlt; lia|].
    pose proof (index_lookup components 2 deviceToken Htarget) as Hidx.
    change (Z.of_nat 2) with 2 in Hidx. rewrite Hidx.
    rewrite encode85_total. cbn [mbind Result_bind].
    destruct (Z.ltb_spec 3 (len components)) as [Hgt|Hle].
    - pose proof (slice_from_ok components 3 ltac:(unfold len in Hgt; lia)) as Hrest.
      change (Z.of_nat 3) with 3 in Hrest. rewrite Hrest.
      cbn [mbind Result_bind]. reflexivity.
    - cbn [mbind Result_bind]. reflexivity.
  Qed.

Lemma components_target :
    3 <= len components -> exists deviceToken, components !! 2%nat = Some deviceToken.
  Proof.
    intros Hlen. apply lookup_lt_is_Some. unfold len in Hlen. lia.
  Qed.

Lemma handler_unsupported :
    3 <= len components -> encoding <> "aesgcm" ->
    handler now Push request
    = Ok (reply 415 ("Unsupported Content-Encoding: " +:+ encoding +:+ nl)).
  Proof.
    intros (deviceToken & Ht)%components_target Henc.
    rewrite (handler_from_switch deviceToken Ht).
    destruct (decide (encoding = "aesgcm")); [contradiction|reflexivity].
  Qed.

Lemma handler_public_key_error (deviceToken text err : string) :
    components !! 2%nat = Some deviceToken -> encoding = "aesgcm" ->
    encodedValue (Header request) "Crypto-Key" "dh" = Ok (text, Some err) ->
    handler now Push request
    = Ok (reply 500 ("Error retrieving public key: " +:+ err +:+ nl)).
  Proof.
    intros Ht Henc Hdh. rewrite (handler_from_switch deviceToken Ht).
    destruct (decide (encoding = "aesgcm")); [|contradiction].
    rewrite Hdh. reflexivity.
  Qed.

Lemma handler_salt_error (deviceToken publicKey text err : string) :
    components !! 2%nat = Some deviceToken -> encoding = "aesgcm" ->
    encodedValue (Header request) "Crypto-Key" "dh" = Ok (publicKey, None) ->
    encodedValue (Header request) "Encryption" "salt" = Ok (text, Some err) ->
    handler now Push request
    = Ok (reply 500 ("Error retrieving salt: " +:+ err +:+ nl)).
  Proof.
    intros Ht Henc Hdh Hsalt. rewrite (handler_from_switch deviceToken Ht).
    destruct (decide (encoding = "aesgcm")); [|contradiction].
    rewrite Hdh. cbn [mbind Result_bind]. rewrite Hsalt. reflexivity.
  Qed.

Lemma handler_pushes (deviceToken publicKey salt : string) :
    components !! 2%nat = Some deviceToken -> encoding = "aesgcm" ->
    encodedValue (Header request) "Crypto-Key" "dh" = Ok (publicKey, None) ->
    encodedValue (Header request) "Encryption" "salt" = Ok (salt, None) ->
    handler now Push request
    = Ok (handler_push now Push request deviceToken
            (Custom "s" salt (Custom "k" publicKey (payload_px request)))).
  Proof.
    intros Ht Henc Hdh Hsalt. rewrite (handler_from_switch deviceToken Ht).
    destruct (decide (encoding = "aesgcm")); [|contradiction].
    rewrite Hdh. cbn [mbind Result_bind]. rewrite Hsalt. reflexivity.
  Qed.

  (** A notification is pushed on one path through the handler only. *)
Lemma handler_pushed_inv (o : Outcome) (n : Notification) :
    handler now Push request = Ok o -> pushed o = Some n ->
    exists deviceToken publicKey salt,
      components !! 2%nat = Some deviceToken /\ encoding = "aesgcm" /\
      encodedValue (Header request) "Crypto-Key" "dh" = Ok (publicKey, None) /\
      encodedValue (Header request) "Encryption" "salt" = Ok (salt, None) /\
      n = notification_for now request deviceToken
            (Custom "s" salt (Custom "k" publicKey (payload_px request))).
  Proof.
    intros Hrun Hpushed.
    destruct (Z.lt_ge_cases (len components) 3) as [Hlt|Hge].
    { rewrite (handler_invalid_path Hlt) in Hrun. injection Hrun as <-. discriminate. }
    destruct (components_target ltac:(lia)) as (deviceToken & Ht).
    rewrite (handler_from_switch deviceToken Ht) in Hrun.
    destruct (decide (encoding = "aesgcm")) as [Henc|Henc];
      [|injection Hrun as <-; discriminate].
    destruct (encodedValue (Header request) "Crypto-Key" "dh")
      as [[publicKey [err|]]|p] eqn:Hdh; cbn [mbind Result_bind] in Hrun;
      [injection Hrun as <-; discriminate| |discriminate].
    destruct (encodedValue (Header request) "Encryption" "salt")
      as [[salt [err|]]|p] eqn:Hsalt; cbn [mbind Result_bind] in Hrun;
      [injection Hrun as <-; discriminate| |discriminate].
    injection Hrun as <-. rewrite handler_push_pushed in Hpushed.
    injection Hpushed as <-.
    exists deviceToken, publicKey, salt. auto.
  Qed.
End Branches.

(** Closes [sub_field_decodes] for a concrete header by running
    [encodedValue]. *)
Ltac run_encodedValue := apply encodedValue_decodes; vm_compute; reflexivity.

(** ** What the pushed notification holds *)

Lemma payload_px_x (request : Request) :
  content (payload_px request) !! "x"
  = if 3 <? len (strings_Split (URL_Path request) "/") then
      Some (strings_Join (drop 3 (strings_Split (URL_Path request) "/")) "/")
    else None.
Proof.
  unfold payload_px. cbv zeta.
  destruct (3 <? len (strings_Split (URL_Path request) "/")); reflexivity.
Qed.

Lemma payload_px_p (request : Request) :
  encode85 (Body request) = Ok (default EmptyString (content (payload_px request) !! "p")).
Proof.
  rewrite encode85_total. unfold payload_px. cbv zeta.
  destruct (3 <? len (strings_Split (URL_Path request) "/")); reflexivity.
Qed.

Lemma content_k_s (k s : string) (payload : Payload) :
  content (Custom "s" s (Custom "k" k payload)) !! "k" = Some k /\
  content (Custom "s" s (Custom "k" k payload)) !! "s" = Some s /\
  content (Custom "s" s (Custom "k" k payload)) !! "x" = content payload !! "x" /\
  content (Custom "s" s (Custom "k" k payload)) !! "p" = content payload !! "p".
Proof.
  cbn [Custom content].
  repeat split;
    repeat (first [rewrite lookup_insert_eq | rewrite lookup_insert_ne by discriminate]);
    reflexivity.
Qed.

(** The handler pushes once the path has a third component, the encoding is
    [aesgcm] and both sub-fields decode. *)
Lemma handler_dispatches (now : Z) (Push : Notification -> Response * option error)
    (request : Request) (deviceToken k s : string) :
  strings_Split (URL_Path request) "/" !! 2%nat = Some deviceToken ->
  Header_Get (Header request) "Content-Encoding" = "aesgcm" ->
  sub_field_decodes (Header request) "Crypto-Key" "dh" k ->
  sub_field_decodes (Header request) "Encryption" "salt" s ->
  exists o,
    handler now Push request = Ok o /\
    pushed o = Some (notification_for now request deviceToken
                       (Custom "s" s (Custom "k" k (payload_px request)))).
Proof.
  intros Ht Henc Hk%encodedValue_decodes Hs%encodedValue_decodes.
  eexists. split; [apply (handler_pushes now Push request deviceToken k s); assumption|].
  apply handler_push_pushed.
Qed.

(** The components of a path that ends with the target, and of one that
    goes on after it. *)
Lemma components_target_only (target : string) :
  contains "/" target = false ->
  strings_Split (relay_pattern +:+ target) "/" = [EmptyString; "relay-to"; target].
Proof.
  intros Ht. unfold relay_pattern.
  change ("/relay-to/" +:+ target) with ("" +:+ String "/" ("relay-to" +:+ String "/" target)).
  rewrite !strings_Split_app by reflexivity.
  rewrite strings_Split_no_sep by exact Ht. reflexivity.
Qed.

Lemma components_target_suffix (target suffix : string) :
  contains "/" target = false ->
  strings_Split (relay_pattern +:+ target +:+ "/" +:+ suffix) "/"
  = EmptyString :: "relay-to" :: target :: strings_Split suffix "/".
Proof.
  intros Ht. unfold relay_pattern.
  change ("/relay-to/" +:+ target +:+ "/" +:+ suffix)
    with ("" +:+ String "/" ("relay-to" +:+ String "/" (target +:+ String "/" suffix))).
  rewrite !strings_Split_app by (reflexivity || exact Ht). reflexivity.
Qed.

Lemma encodedValue_fields (header : gmap string string) (name key : string) :
  Forall (fun e => contains "=" e = true) (fields (Header_Get header name)) ->
  encodedValue header name key
  = Ok match sub_field header name key with
       | None => (EmptyString, Some ("Value " +:+ key +:+ " not found in header " +:+ name))
       | Some value =>
           match base64_RawURLEncoding_DecodeString value with
           | (_, Some err) => (EmptyString, Some err)
           | (bytes, None) => (string_of_list_byte (encode85_spec bytes), None)
           end
       end.
Proof.
  intros Hall. unfold encodedValue, sub_field.
  rewrite (parseKeyValues_ok _ Hall). cbn [mbind Result_bind].
  destruct (parse_untilEq (Header_Get header name) !! key) as [value|]; [|reflexivity].
  destruct (base64_RawURLEncoding_DecodeString value) as [bytes [err|]]; [reflexivity|].
  rewrite encode85_total. reflexivity.
Qed.

Lemma seconds_Duration_in_range (ttl : Z) :
  - 9223372036 <= ttl <= 9223372036 -> seconds_Duration ttl = ttl * 1000000000.
Proof.
  intros Hr. unfold seconds_Duration. apply wrap64_small. lia.
Qed.

Lemma strconv_Atoi_empty : strconv_Atoi EmptyString = None.
Proof. reflexivity. Qed.

(** ** The translator *)

(** C5. A request routed to the handler whose [Content-Encoding] is not
    "aesgcm" (another scheme, or none) is answered with status 415 and the
    text "Unsupported Content-Encoding: ...", and nothing is pushed. *)
Theorem handler_unsupported_encoding (now : Z)
    (Push : Notification -> Response * option error) (request : Request) :
  routed request ->
  Header_Get (Header request) "Content-Encoding" <> "aesgcm" ->
  handler now Push request
  = Ok {| status := 415; location := None;
          body := "Unsupported Content-Encoding: "
                  +:+ Header_Get (Header request) "Content-Encoding" +:+ nl;
          pushed := None |}.
Proof.
  intros Hr Henc. apply handler_unsupported; [apply routed_len; exact Hr|exact Henc].
Qed.

Lemma handler_unsupported_encoding_aes128gcm :
  handler 0 push_sent
    {| URL_Path := "/relay-to/abc123";
       Header := {["Content-Encoding" := "aes128gcm"]};
       Body := [x41; x42; x43] |}
  = Ok {| status := 415; location := None;
          body := "Unsupported Content-Encoding: aes128gcm" +:+ nl; pushed := None |}.
Proof.
  rewrite handler_unsupported_encoding.
  - vm_compute. reflexivity.
  - reflexivity.
  - vm_compute. discriminate.
Defined.

(** C3, as amended. Take a request routed to the handler with
    [Content-Encoding] "aesgcm" in whose [Crypto-Key] and [Encryption] values
    every field has an [=], and read the sub-fields dh and salt as the parser
    does ([sub_field]). If both are there and decode from base64url, the
    pushed notification has k and s, the [encode85] texts of the decoded
    bytes. If dh is missing or does not decode, the answer is status 500 with
    "Error retrieving public key: ..." (a missing one named with its header),
    and nothing is pushed; likewise for salt with "Error retrieving salt:". *)
Theorem handler_crypto_parameters (now : Z)
    (Push : Notification -> Response * option error) (request : Request) :
  routed request ->
  Header_Get (Header request) "Content-Encoding" = "aesgcm" ->
  Forall (fun e => contains "=" e = true)
    (fields (Header_Get (Header request) "Crypto-Key")) ->
  Forall (fun e => contains "=" e = true)
    (fields (Header_Get (Header request) "Encryption")) ->
  (forall (A B : string) (a b : list byte),
     sub_field (Header request) "Crypto-Key" "dh" = Some A ->
     sub_field (Header request) "Encryption" "salt" = Some B ->
     base64_RawURLEncoding_DecodeString A = (a, None) ->
     base64_RawURLEncoding_DecodeString B = (b, None) ->
     exists (k s : string) (o : Outcome) (n : Notification),
       encode85 a = Ok k /\ encode85 b = Ok s /\
       handler now Push request = Ok o /\ pushed o = Some n /\
       content (Payload_of n) !! "k" = Some k /\
       content (Payload_of n) !! "s" = Some s)
  /\ (sub_field (Header request) "Crypto-Key" "dh" = None ->
      handler now Push request
      = Ok (reply 500 ("Error retrieving public key: "
                       +:+ "Value dh not found in header Crypto-Key" +:+ nl)))
  /\ (forall (A err : string) (a : list byte),
        sub_field (Header request) "Crypto-Key" "dh" = Some A ->
        base64_RawURLEncoding_DecodeString A = (a, Some err) ->
        handler now Push request
        = Ok (reply 500 ("Error retrieving public key: " +:+ err +:+ nl)))
  /\ (forall (A : string) (a : list byte),
        sub_field (Header request) "Crypto-Key" "dh" = Some A ->
        base64_RawURLEncoding_DecodeString A = (a, None) ->
        sub_field (Header request) "Encryption" "salt" = None ->
        handler now Push request
        = Ok (reply 500 ("Error retrieving salt: "
                         +:+ "Value salt not found in header Encryption" +:+ nl)))
  /\ (forall (A B err : string) (a b : list byte),
        sub_field (Header request) "Crypto-Key" "dh" = Some A ->
        base64_RawURLEncoding_DecodeString A = (a, None) ->
        sub_field (Header request) "Encryption" "salt" = Some B ->
        base64_RawURLEncoding_DecodeString B = (b, Some err) ->
        handler now Push request
        = Ok (reply 500 ("Error retrieving salt: " +:+ err +:+ nl))).
Proof.
  intros Hr Henc Hck Hen.
  destruct (components_target request (routed_len request Hr)) as (target & Ht).
  pose proof (encodedValue_fields (Header request) "Crypto-Key" "dh" Hck) as Hdh.
  pose proof (encodedValue_fields (Header request) "Encryption" "salt" Hen) as Hsalt.
  repeat split.
  - intros A B a b HA HB Ha Hb. rewrite HA, Ha in Hdh. rewrite HB, Hb in Hsalt.
    exists (string_of_list_byte (encode85_spec a)), (string_of_list_byte (encode85_spec b)).
    eexists. eexists. rewrite !encode85_total.
    split; [reflexivity|]. split; [reflexivity|].
    split; [apply (handler_pushes now Push request target _ _ Ht Henc Hdh Hsalt)|].
    split; [apply handler_push_pushed|].
    cbn [notification_for Payload_of]. split; apply content_k_s.
  - intros HA. rewrite HA in Hdh.
    apply (handler_public_key_error now Push request target _ _ Ht Henc Hdh).
  - intros A err a HA Ha. rewrite HA, Ha in Hdh.
    apply (handler_public_key_error now Push request target _ _ Ht Henc Hdh).
  - intros A a HA Ha HB. rewrite HA, Ha in Hdh. rewrite HB in Hsalt.
    apply (handler_salt_error now Push request target _ _ _ Ht Henc Hdh Hsalt).
  - intros A B err a b HA Ha HB Hb. rewrite HA, Ha in Hdh. rewrite HB, Hb in Hsalt.
    apply (handler_salt_error now Push request target _ _ _ Ht Henc Hdh Hsalt).
Qed.

(** The key and the salt "QUJD" are the bytes "ABC", which [encode85] turns
    into "6@}s". *)
Lemma handler_crypto_parameters_witness :
  exists (o : Outcome) (n : Notification),
    handler 0 push_sent (aesgcm_request "/relay-to/abc123" "dh=QUJD" "salt=QUJD" ∅) = Ok o /\
    pushed o = Some n /\
    content (Payload_of n) !! "k" = Some "6@}s" /\
    content (Payload_of n) !! "s" = Some "6@}s".
Proof.
  destruct (handler_crypto_parameters 0 push_sent
              (aesgcm_request "/relay-to/abc123" "dh=QUJD" "salt=QUJD" ∅))
    as [Hok _].
  - reflexivity.
  - reflexivity.
  - vm_compute. repeat constructor.
  - vm_compute. repeat constructor.
  - destruct (Hok "QUJD" "QUJD" [x41; x42; x43] [x41; x42; x43])
      as (k & s & o & n & Hk & Hs & Hrun & Hpushed & Hck & Hcs);
      try (vm_compute; reflexivity).
    exists o, n.
    assert (k = "6@}s") as -> by (vm_compute in Hk; injection Hk as <-; reflexivity).
    assert (s = "6@}s") as -> by (vm_compute in Hs; injection Hs as <-; reflexivity).
    auto.
Defined.

(** C3 as stated fails. Of the value "dh=QUJD=" the sub-field dh, read to
    the end of the field, is "QUJD=", which is not base64url without
    padding; yet the parser stops at the second [=], so the handler decodes
    "QUJD" and pushes a notification with k. And for the value "dh", which
    has no dh sub-field, the handler does not answer with an error: it
    panics. *)
Lemma handler_crypto_parameters_not_as_stated :
  (parse_firstEq "dh=QUJD=" !! "dh" = Some "QUJD=" /\
   (base64_RawURLEncoding_DecodeString "QUJD=").2
   = Some "illegal base64 data at input byte 4" /\
   exists (o : Outcome) (n : Notification),
     handler 0 push_sent (aesgcm_request "/relay-to/abc123" "dh=QUJD=" "salt=QUJD" ∅) = Ok o /\
     status o = 201 /\ pushed o = Some n /\
     content (Payload_of n) !! "k" = Some "6@}s")
  /\ handler 0 push_sent (aesgcm_request "/relay-to/abc123" "dh" "salt=QUJD" ∅)
     = Panic (IndexOutOfRange 1 1).
Proof.
  split; [split; [|split]|].
  - vm_compute. reflexivity.
  - vm_compute. reflexivity.
  - eexists. eexists. split; [vm_compute; reflexivity|].
    split; [reflexivity|]. split; [reflexivity|]. vm_compute. reflexivity.
  - vm_compute. reflexivity.
Qed.

(** C6, as amended. For an [aesgcm] request whose sub-fields decode and
    whose path is the pattern, a target segment and then either nothing or a
    [/] and a suffix, the pushed notification has the target as its device
    token; the custom field x is absent in the first case and is in the
    second the suffix as it stands in the path (the further segments joined
    with [/], not encoded), the empty text when the path ends with that [/]. *)
Theorem handler_target_and_suffix (now : Z)
    (Push : Notification -> Response * option error) (request : Request)
    (target k s : string) :
  contains "/" target = false ->
  Header_Get (Header request) "Content-Encoding" = "aesgcm" ->
  sub_field_decodes (Header request) "Crypto-Key" "dh" k ->
  sub_field_decodes (Header request) "Encryption" "salt" s ->
  (URL_Path request = relay_pattern +:+ target ->
   exists (o : Outcome) (n : Notification),
     handler now Push request = Ok o /\ pushed o = Some n /\
     DeviceToken n = target /\ content (Payload_of n) !! "x" = None)
  /\ (forall suffix : string,
        URL_Path request = relay_pattern +:+ target +:+ "/" +:+ suffix ->
        exists (o : Outcome) (n : Notification),
          handler now Push request = Ok o /\ pushed o = Some n /\
          DeviceToken n = target /\ content (Payload_of n) !! "x" = Some suffix).
Proof.
  intros Ht Henc Hk Hs. split.
  - intros Hpath.
    pose proof (components_target_only target Ht) as Hc. rewrite <- Hpath in Hc.
    destruct (handler_dispatches now Push request target k s) as (o & Hrun & Hpushed);
      try assumption; [rewrite Hc; reflexivity|].
    eexists. eexists. split; [exact Hrun|]. split; [exact Hpushed|].
    cbn [notification_for DeviceToken Payload_of]. split; [reflexivity|].
    destruct (content_k_s k s (payload_px request)) as (_ & _ & -> & _).
    rewrite payload_px_x, Hc. reflexivity.
  - intros suffix Hpath.
    pose proof (components_target_suffix target suffix Ht) as Hc. rewrite <- Hpath in Hc.
    destruct (handler_dispatches now Push request target k s) as (o & Hrun & Hpushed);
      try assumption; [rewrite Hc; reflexivity|].
    eexists. eexists. split; [exact Hrun|]. split; [exact Hpushed|].
    cbn [notification_for DeviceToken Payload_of]. split; [reflexivity|].
    destruct (content_k_s k s (payload_px request)) as (_ & _ & -> & _).
    rewrite payload_px_x, Hc.
    destruct (strings_Split_nonempty suffix "/") as (part & parts & Hsplit).
    replace (3 <? len (EmptyString :: "relay-to" :: target :: strings_Split suffix "/"))
      with true
      by (symmetry; apply Z.ltb_lt; rewrite Hsplit; unfold len; simpl; lia).
    cbn [drop]. rewrite drop_0, (strings_Join_Split suffix "/"). reflexivity.
Qed.

(** The path "/relay-to/abc123/foo/bar". *)
Lemma handler_target_and_suffix_witness :
  exists (o : Outcome) (n : Notification),
    handler 0 push_sent
      (aesgcm_request "/relay-to/abc123/foo/bar" "dh=QUJD" "salt=QUJD" ∅) = Ok o /\
    pushed o = Some n /\
    DeviceToken n = "abc123" /\ content (Payload_of n) !! "x" = Some "foo/bar".
Proof.
  destruct (handler_target_and_suffix 0 push_sent
              (aesgcm_request "/relay-to/abc123/foo/bar" "dh=QUJD" "salt=QUJD" ∅)
              "abc123" "6@}s" "6@}s") as [_ Hsuffix].
  - reflexivity.
  - reflexivity.
  - run_encodedValue.
  - run_encodedValue.
  - apply (Hsuffix "foo/bar"). reflexivity.
Defined.

(** C6 as stated fails: the path "/relay-to/abc123/" has no text after the
    target's [/], and the notification still has the field x, empty. *)
Lemma handler_empty_suffix_present :
  strings_Join (drop 3 (strings_Split "/relay-to/abc123/" "/")) "/" = EmptyString
  /\ exists (o : Outcome) (n : Notification),
       handler 0 push_sent (aesgcm_request "/relay-to/abc123/" "dh=QUJD" "salt=QUJD" ∅)
       = Ok o /\
       pushed o = Some n /\ DeviceToken n = "abc123" /\
       content (Payload_of n) !! "x" = Some EmptyString.
Proof.
  split; [reflexivity|].
  eexists. eexists. split; [vm_compute; reflexivity|].
  split; [reflexivity|]. split; [reflexivity|]. vm_compute. reflexivity.
Qed.

(** C7, as amended. A request whose path has fewer than three components
    between [/] is answered with status 500 and "Invalid URL path: ...",
    whatever its body and headers, and nothing is pushed. The third
    component is taken as the target as it is, empty or not: a path that is
    the pattern and a target gives, when the sub-fields decode, a pushed
    notification with that device token. *)
Theorem handler_path_check (now : Z)
    (Push : Notification -> Response * option error) (request : Request) :
  (len (strings_Split (URL_Path request) "/") < 3 ->
   handler now Push request
   = Ok {| status := 500; location := None;
           body := "Invalid URL path: " +:+ URL_Path request +:+ nl;
           pushed := None |})
  /\ (forall target k s : string,
        contains "/" target = false ->
        URL_Path request = relay_pattern +:+ target ->
        Header_Get (Header request) "Content-Encoding" = "aesgcm" ->
        sub_field_decodes (Header request) "Crypto-Key" "dh" k ->
        sub_field_decodes (Header request) "Encryption" "salt" s ->
        exists (o : Outcome) (n : Notification),
          handler now Push request = Ok o /\ pushed o = Some n /\
          DeviceToken n = target).
Proof.
  split.
  - intros Hlen. apply handler_invalid_path. exact Hlen.
  - intros target k s Ht Hpath Henc Hk Hs.
    pose proof (components_target_only target Ht) as Hc. rewrite <- Hpath in Hc.
    destruct (handler_dispatches now Push request target k s) as (o & Hrun & Hpushed);
      try assumption; [rewrite Hc; reflexivity|].
    eexists. eexists. split; [exact Hrun|]. split; [exact Hpushed|]. reflexivity.
Qed.

(** The path "/relay-to" has two components. *)
Lemma handler_path_check_witness :
  handler 0 push_sent (aesgcm_request "/relay-to" "dh=QUJD" "salt=QUJD" ∅)
  = Ok {| status := 500; location := None;
          body := "Invalid URL path: /relay-to" +:+ nl; pushed := None |}.
Proof.
  rewrite (proj1 (handler_path_check 0 push_sent
                    (aesgcm_request "/relay-to" "dh=QUJD" "salt=QUJD" ∅))).
  - reflexivity.
  - vm_compute. reflexivity.
Defined.

(** C7 as stated fails: the path "/relay-to/" has an empty target, and the
    request is not rejected: a notification with an empty device token is
    pushed and the answer is 201. *)
Lemma handler_empty_target_accepted :
  exists (o : Outcome) (n : Notification),
    handler 0 push_sent (aesgcm_request "/relay-to/" "dh=QUJD" "salt=QUJD" ∅) = Ok o /\
    status o = 201 /\ pushed o = Some n /\ DeviceToken n = EmptyString.
Proof.
  eexists. eexists. split; [vm_compute; reflexivity|].
  split; [reflexivity|]. split; reflexivity.
Qed.

(** C8, as amended. For a routed [aesgcm] request whose sub-fields decode,
    a notification is pushed whatever the [TTL] header is; its expiration is
    set if and only if the header's text is an integer for [strconv.Atoi],
    of either sign, and is then [now] plus that many seconds as an [int64]
    count of nanoseconds, which for at most 9223372036 seconds either way is
    [now + TTL] seconds. With no header, or one that is not a number, the
    expiration is left unset. *)
Theorem handler_expiration (now : Z)
    (Push : Notification -> Response * option error) (request : Request) (k s : string) :
  routed request ->
  Header_Get (Header request) "Content-Encoding" = "aesgcm" ->
  sub_field_decodes (Header request) "Crypto-Key" "dh" k ->
  sub_field_decodes (Header request) "Encryption" "salt" s ->
  exists (o : Outcome) (n : Notification),
    handler now Push request = Ok o /\ pushed o = Some n /\
    (forall ttl : Z,
       strconv_Atoi (Header_Get (Header request) "TTL") = Some ttl ->
       Expiration n = Some (now + seconds_Duration ttl)) /\
    (forall ttl : Z,
       strconv_Atoi (Header_Get (Header request) "TTL") = Some ttl ->
       - 9223372036 <= ttl <= 9223372036 ->
       Expiration n = Some (now + ttl * 1000000000)) /\
    (strconv_Atoi (Header_Get (Header request) "TTL") = None -> Expiration n = None).
Proof.
  intros Hr Henc Hk Hs.
  destruct (components_target request (routed_len request Hr)) as (target & Ht).
  destruct (handler_dispatches now Push request target k s) as (o & Hrun & Hpushed);
    try assumption.
  eexists. eexists. split; [exact Hrun|]. split; [exact Hpushed|].
  cbn [notification_for Expiration].
  destruct (decide (Header_Get (Header request) "TTL" = EmptyString)) as [Hempty|Hne].
  - rewrite Hempty, strconv_Atoi_empty.
    split; [discriminate|]. split; [discriminate|]. reflexivity.
  - split; [|split].
    + intros ttl ->. reflexivity.
    + intros ttl -> Hrange. rewrite seconds_Duration_in_range by exact Hrange. reflexivity.
    + intros ->. reflexivity.
Qed.

(** A [TTL] of 60 at the time 1000 s. *)
Lemma handler_expiration_witness :
  exists (o : Outcome) (n : Notification),
    handler 1000000000000 push_sent
      (aesgcm_request "/relay-to/abc123" "dh=QUJD" "salt=QUJD" {["TTL" := "60"]}) = Ok o /\
    pushed o = Some n /\ Expiration n = Some 1060000000000.
Proof.
  destruct (handler_expiration 1000000000000 push_sent
              (aesgcm_request "/relay-to/abc123" "dh=QUJD" "salt=QUJD" {["TTL" := "60"]})
              "6@}s" "6@}s") as (o & n & Hrun & Hpushed & _ & Hset & _).
  - reflexivity.
  - reflexivity.
  - run_encodedValue.
  - run_encodedValue.
  - exists o, n. split; [exact Hrun|]. split; [exact Hpushed|].
    apply (Hset 60); [vm_compute; reflexivity|lia].
Defined.

(** C8 as stated fails: "-5" is not a non-negative integer, and with it as
    [TTL] the expiration is set, five seconds before [now]. *)
Lemma handler_negative_ttl_sets_expiration :
  strconv_Atoi "-5" = Some (-5)
  /\ exists (o : Outcome) (n : Notification),
       handler 1000000000000 push_sent
         (aesgcm_request "/relay-to/abc123" "dh=QUJD" "salt=QUJD" {["TTL" := "-5"]}) = Ok o /\
       pushed o = Some n /\ Expiration n = Some 995000000000.
Proof.
  split; [reflexivity|].
  eexists. eexists. split; [vm_compute; reflexivity|].
  split; [reflexivity|]. vm_compute. reflexivity.
Qed.

(** C9. A notification that the handler pushes has both custom fields k
    and s, so never one without the other: the request's encoding was
    [aesgcm] and both sub-fields decoded, k and s being what [encode85] made
    of them. Conversely a routed [aesgcm] request whose two sub-fields decode
    has a notification pushed with both. *)
Theorem handler_k_and_s_together (now : Z)
    (Push : Notification -> Response * option error) (request : Request) :
  (forall (o : Outcome) (n : Notification),
     handler now Push request = Ok o -> pushed o = Some n ->
     (is_Some (content (Payload_of n) !! "k") <-> is_Some (content (Payload_of n) !! "s")) /\
     Header_Get (Header request) "Content-Encoding" = "aesgcm" /\
     exists k s : string,
       sub_field_decodes (Header request) "Crypto-Key" "dh" k /\
       sub_field_decodes (Header request) "Encryption" "salt" s /\
       content (Payload_of n) !! "k" = Some k /\
       content (Payload_of n) !! "s" = Some s)
  /\ (forall k s : string,
        routed request ->
        Header_Get (Header request) "Content-Encoding" = "aesgcm" ->
        sub_field_decodes (Header request) "Crypto-Key" "dh" k ->
        sub_field_decodes (Header request) "Encryption" "salt" s ->
        exists (o : Outcome) (n : Notification),
          handler now Push request = Ok o /\ pushed o = Some n /\
          content (Payload_of n) !! "k" = Some k /\
          content (Payload_of n) !! "s" = Some s).
Proof.
  split.
  - intros o n Hrun Hpushed.
    destruct (handler_pushed_inv now Push request o n Hrun Hpushed)
      as (target & k & s & _ & Henc & Hk & Hs & ->).
    cbn [notification_for Payload_of].
    destruct (content_k_s k s (payload_px request)) as (Hck & Hcs & _).
    rewrite Hck, Hcs. split; [split; eauto|]. split; [exact Henc|].
    exists k, s. rewrite <- !encodedValue_decodes. auto.
  - intros k s Hr Henc Hk Hs.
    destruct (components_target request (routed_len request Hr)) as (target & Ht).
    destruct (handler_dispatches now Push request target k s) as (o & Hrun & Hpushed);
      try assumption.
    eexists. eexists. split; [exact Hrun|]. split; [exact Hpushed|].
    cbn [notification_for Payload_of]. split; apply content_k_s.
Qed.

(** The notification pushed for a sample request has k and s. *)
Lemma handler_k_and_s_together_witness :
  exists (o : Outcome) (n : Notification),
    handler 0 push_sent (aesgcm_request "/relay-to/abc123" "dh=QUJD" "salt=QUJD" ∅) = Ok o /\
    pushed o = Some n /\
    (is_Some (content (Payload_of n) !! "k") <-> is_Some (content (Payload_of n) !! "s")).
Proof.
  destruct (proj2 (handler_k_and_s_together 0 push_sent
                     (aesgcm_request "/relay-to/abc123" "dh=QUJD" "salt=QUJD" ∅))
              "6@}s" "6@}s") as (o & n & Hrun & Hpushed & _).
  - reflexivity.
  - reflexivity.
  - run_encodedValue.
  - run_encodedValue.
  - exists o, n. split; [exact Hrun|]. split; [exact Hpushed|].
    apply (proj1 (handler_k_and_s_together 0 push_sent
                    (aesgcm_request "/relay-to/abc123" "dh=QUJD" "salt=QUJD" ∅))
             o n Hrun Hpushed).
Defined.

(** ** Examples *)

(** The test vector of the Z85 specification, and a three-byte tail. *)
Example encode85_HelloWorld :
  encode85 [x86; x4f; xd2; x6f; xb5; x59; xf7; x5b] = Ok "HelloWorld".
Proof. vm_compute. reflexivity. Qed.

Example encode85_ABC : encode85 [x41; x42; x43] = Ok "6@}s".
Proof. vm_compute. reflexivity. Qed.

Example handler_no_content_encoding :
  handler 0 push_sent {| URL_Path := "/relay-to/abc123"; Header := ∅; Body := [] |}
  = Ok {| status := 415; location := None;
          body := "Unsupported Content-Encoding: " +:+ nl; pushed := None |}.
Proof. vm_compute. reflexivity. Qed.

Example handler_missing_salt :
  handler 0 push_sent (aesgcm_request "/relay-to/abc123" "dh=QUJD" "" ∅)
  = Ok {| status := 500; location := None;
          body := "Error retrieving salt: Value salt not found in header Encryption" +:+ nl;
          pushed := None |}.
Proof. vm_compute. reflexivity. Qed.

Example handler_urgency_very_low :
  Priority (notification_for 0
              (aesgcm_request "/relay-to/abc123" "dh=QUJD" "salt=QUJD"
                 {["Urgency" := "very-low"]})
              "abc123" NewPayload) = PriorityLow.
Proof. vm_compute. reflexivity. Qed.

(** * Further properties of the encoder *)

(** The alphabet has no character twice. *)
Lemma z85digits_NoDup : NoDup z85digits.
Proof.
  apply (NoDup_fmap_1 byte_val).
  apply (bool_decide_unpack (NoDup (byte_val <$> z85digits))).
  vm_compute. reflexivity.
Qed.

Lemma digit_lookup (d : Z) : 0 <= d < 85 -> z85digits !! Z.to_nat d = Some (digit d).
Proof.
  intros Hd. unfold digit.
  destruct (z85digits !! Z.to_nat d) as [x|] eqn:Hx; [reflexivity|].
  apply lookup_ge_None in Hx.
  assert (length z85digits = 85%nat) as Hlen by reflexivity. lia.
Qed.

Lemma digit_inj (a b : Z) :
  0 <= a < 85 -> 0 <= b < 85 -> digit a = digit b -> a = b.
Proof.
  intros Ha Hb Hab.
  pose proof (digit_lookup a Ha) as Hla. pose proof (digit_lookup b Hb) as Hlb.
  rewrite Hab in Hla.
  pose proof (NoDup_lookup _ _ _ _ z85digits_NoDup Hla Hlb). lia.
Qed.

(** A group of [n] digits determines a value below [85 ^ n]. *)
Lemma digits85_inj (n : nat) :
  forall v w : Z,
    0 <= v < 85 ^ Z.of_nat n -> 0 <= w < 85 ^ Z.of_nat n ->
    digits85 n v = digits85 n w -> v = w.
Proof.
  induction n as [|n IH]; intros v w Hv Hw Heq.
  - simpl in Hv, Hw. lia.
  - cbn [digits85] in Heq. apply app_inj_tail in Heq as [Hhi Hlo].
    rewrite Nat2Z.inj_succ, Z.pow_succ_r in Hv, Hw by lia.
    assert (v / 85 = w / 85) as Hq.
    { apply IH; [| |exact Hhi]; split;
        try (apply Z.div_pos; lia); apply Z.div_lt_upper_bound; lia. }
    assert (v mod 85 = w mod 85) as Hr
      by (apply digit_inj; [apply Z.mod_pos_bound; lia..|exact Hlo]).
    rewrite (Z.div_mod v 85), (Z.div_mod w 85) by lia. congruence.
Qed.

Lemma byte_val_inj (a b : byte) : byte_val a = byte_val b -> a = b.
Proof.
  unfold byte_val. intros H%N2Z.inj.
  pose proof (Byte.of_to_N a) as Ha. rewrite H, Byte.of_to_N in Ha. congruence.
Qed.

(** Sequences of one length with one big-endian value are equal. *)
Lemma be_value_inj (bs : list byte) :
  forall cs : list byte, length bs = length cs -> be_value bs = be_value cs -> bs = cs.
Proof.
  induction bs as [|b bs IH] using rev_ind; intros cs Hlen Heq.
  - destruct cs; [reflexivity|discriminate].
  - destruct (exists_last (l := cs)) as (cs' & c & ->).
    { intros ->. rewrite length_app in Hlen. simpl in Hlen. lia. }
    rewrite !length_app in Hlen. simpl in Hlen.
    rewrite !be_value_snoc in Heq.
    pose proof (byte_val_range b). pose proof (byte_val_range c).
    assert (be_value bs = be_value cs' /\ byte_val b = byte_val c) as [Hv Hb] by lia.
    rewrite (IH cs') by (lia || exact Hv). rewrite (byte_val_inj _ _ Hb). reflexivity.
Qed.

(** The length of the text gives the length of the input. *)
Lemma encode85_spec_length_inj (bs cs : list byte) :
  length (encode85_spec bs) = length (encode85_spec cs) -> length bs = length cs.
Proof.
  pose proof (Nat.div_mod_eq (length bs) 4) as Hb.
  pose proof (Nat.mod_upper_bound (length bs) 4 ltac:(lia)) as Hbk.
  pose proof (Nat.div_mod_eq (length cs) 4) as Hc.
  pose proof (Nat.mod_upper_bound (length cs) 4 ltac:(lia)) as Hck.
  rewrite (encode85_spec_length _ _ bs Hb Hbk), (encode85_spec_length _ _ cs Hc Hck).
  destruct (decide (length bs mod 4 = 0)%nat), (decide (length cs mod 4 = 0)%nat); lia.
Qed.

Lemma encode85_spec_inj_upto (n : nat) :
  forall bs cs : list byte,
    (length bs <= n)%nat -> length bs = length cs ->
    encode85_spec bs = encode85_spec cs -> bs = cs.
Proof.
  induction n as [|n IH]; intros bs cs Hn Hlen Heq.
  - destruct bs; [|simpl in Hn; lia]. destruct cs; [reflexivity|discriminate].
  - destruct bs as [|b0 [|b1 [|b2 [|b3 bs]]]], cs as [|c0 [|c1 [|c2 [|c3 cs]]]];
      try discriminate Hlen; try reflexivity.
    + apply be_value_inj; [reflexivity|].
      apply (digits85_inj 2); [| |exact Heq].
      * pose proof (be_value_range [b0]). unfold len in *. simpl in *. lia.
      * pose proof (be_value_range [c0]). unfold len in *. simpl in *. lia.
    + apply be_value_inj; [reflexivity|].
      apply (digits85_inj 3); [| |exact Heq].
      * pose proof (be_value_range [b0; b1]). unfold len in *. simpl in *. lia.
      * pose proof (be_value_range [c0; c1]). unfold len in *. simpl in *. lia.
    + apply be_value_inj; [reflexivity|].
      apply (digits85_inj 4); [| |exact Heq].
      * pose proof (be_value_range [b0; b1; b2]). unfold len in *. simpl in *. lia.
      * pose proof (be_value_range [c0; c1; c2]). unfold len in *. simpl in *. lia.
    + cbn [encode85_spec] in Heq.
      apply app_inj_1 in Heq as [Hblock Hrest]; [|rewrite !digits85_length; reflexivity].
      assert ([b0; b1; b2; b3] = [c0; c1; c2; c3]) as Hb.
      { apply be_value_inj; [reflexivity|].
        apply (digits85_inj 5); [| |exact Hblock].
        - pose proof (be_value_range [b0; b1; b2; b3]). unfold len in *. simpl in *. lia.
        - pose proof (be_value_range [c0; c1; c2; c3]). unfold len in *. simpl in *. lia. }
      injection Hb as -> -> -> ->. do 4 f_equal.
      apply IH; [simpl in Hn; lia|simpl in Hlen; lia|exact Hrest].
Qed.

Lemma string_of_list_byte_inj (l1 l2 : list byte) :
  string_of_list_byte l1 = string_of_list_byte l2 -> l1 = l2.
Proof.
  intros H. rewrite <- (list_byte_of_string_of_list_byte l1), H.
  apply list_byte_of_string_of_list_byte.
Qed.

(** X1. [encode85] loses nothing: two different byte sequences never get
    the same text. *)
Theorem encode85_injective (bs cs : list byte) :
  bs <> cs -> encode85 bs <> encode85 cs.
Proof.
  intros Hne Heq. apply Hne.
  rewrite !encode85_total in Heq. injection Heq as Heq.
  apply string_of_list_byte_inj in Heq.
  apply (encode85_spec_inj_upto (length bs)); [lia| |exact Heq].
  apply encode85_spec_length_inj. rewrite Heq. reflexivity.
Qed.

(** A tail of one zero byte and a tail of two. *)
Lemma encode85_injective_witness : encode85 [x00] <> encode85 [x00; x00].
Proof.
  apply (encode85_injective [x00] [x00; x00]). discriminate.
Defined.

Lemma encode85_spec_app (m : nat) (cs : list byte) :
  forall bs : list byte,
    length bs = (4 * m)%nat ->
    encode85_spec (bs ++ cs) = encode85_spec bs ++ encode85_spec cs.
Proof.
  induction m as [|m IH]; intros bs Hlen.
  - destruct bs; [reflexivity|simpl in Hlen; lia].
  - destruct bs as [|b0 [|b1 [|b2 [|b3 bs]]]]; simpl in Hlen; try lia.
    cbn [app encode85_spec]. rewrite (IH bs) by lia. apply app_assoc.
Qed.

Lemma string_of_list_byte_app (l1 l2 : list byte) :
  string_of_list_byte (l1 ++ l2) = string_of_list_byte l1 +:+ string_of_list_byte l2.
Proof.
  induction l1 as [|b l1 IH]; [reflexivity|].
  cbn [app string_of_list_byte List.map string_of_list_ascii].
  rewrite string_app_cons. f_equal. exact IH.
Qed.

(** X2. When the first of two byte sequences is a whole number of 4-byte
    blocks, the text of their concatenation is the text of the first
    followed by the text of the second. *)
Theorem encode85_app (m : nat) (bs cs : list byte) :
  length bs = (4 * m)%nat ->
  exists s t : string,
    encode85 bs = Ok s /\ encode85 cs = Ok t /\ encode85 (bs ++ cs) = Ok (s +:+ t).
Proof.
  intros Hlen.
  exists (string_of_list_byte (encode85_spec bs)), (string_of_list_byte (encode85_spec cs)).
  rewrite !encode85_total, (encode85_spec_app m cs bs Hlen), string_of_list_byte_app.
  auto.
Qed.

Lemma encode85_app_witness :
  exists s t : string,
    encode85 [x86; x4f; xd2; x6f] = Ok s /\ encode85 [x41] = Ok t /\
    encode85 ([x86; x4f; xd2; x6f] ++ [x41]) = Ok (s +:+ t).
Proof.
  apply (encode85_app 1 [x86; x4f; xd2; x6f] [x41]). reflexivity.
Defined.

(** The characters of the alphabet are printable ASCII, from 33 to 125, and
    none of them is a double quote (34), an apostrophe (39), a comma (44), a
    semicolon (59), a backslash (92), an underscore (95), a backquote (96) or
    a bar (124). *)
Lemma z85digits_printable :
  Forall (fun c => 33 <= byte_val c <= 125 /\ byte_val c ∉ [34; 39; 44; 59; 92; 95; 96; 124])
    z85digits.
Proof.
  apply (Forall_fmap byte_val (fun v => 33 <= v <= 125 /\ v ∉ [34; 39; 44; 59; 92; 95; 96; 124])).
  apply (bool_decide_unpack
           (Forall (fun v => 33 <= v <= 125 /\ v ∉ [34; 39; 44; 59; 92; 95; 96; 124])
              (byte_val <$> z85digits))).
  vm_compute. reflexivity.
Qed.

(** X3. A text that [encode85] returns has only printable ASCII characters
    other than the space, and in it no double quote, apostrophe, comma,
    semicolon, backslash, underscore, backquote, bar or tilde. *)
Theorem encode85_printable (bytes : list byte) (s : string) :
  encode85 bytes = Ok s ->
  Forall (fun c => 33 <= byte_val c <= 125 /\ byte_val c ∉ [34; 39; 44; 59; 92; 95; 96; 124])
    (list_byte_of_string s).
Proof.
  rewrite encode85_total. intros [= <-].
  rewrite list_byte_of_string_of_list_byte.
  eapply Forall_impl; [apply encode85_spec_alphabet|].
  intros c Hc. pose proof z85digits_printable as Hall.
  rewrite Forall_forall in Hall. apply Hall. exact Hc.
Qed.

Lemma encode85_printable_witness :
  Forall (fun c => 33 <= byte_val c <= 125 /\ byte_val c ∉ [34; 39; 44; 59; 92; 95; 96; 124])
    (list_byte_of_string "HelloWorld").
Proof.
  apply (encode85_printable [x86; x4f; xd2; x6f; xb5; x59; xf7; x5b]).
  vm_compute. reflexivity.
Defined.

(** * Further properties of the header parser *)

Lemma contains_app (c : ascii) (a b : string) :
  contains c (a +:+ b) = contains c a || contains c b.
Proof.
  induction a as [|x a IH]; [reflexivity|].
  rewrite string_app_cons. cbn [contains]. rewrite IH. apply orb_assoc.
Qed.

Lemma strings_Split_app_all (a b : string) (sep : ascii) :
  strings_Split (a +:+ String sep b) sep = strings_Split a sep ++ strings_Split b sep.
Proof.
  induction a as [|c a IH]; rewrite ?string_app_nil_l, ?string_app_cons;
    cbn [strings_Split].
  - rewrite Ascii.eqb_refl. reflexivity.
  - rewrite IH. destruct (Ascii.eqb c sep); [reflexivity|].
    destruct (strings_Split_nonempty a sep) as (part & parts & ->). reflexivity.
Qed.

Lemma fields_app (a b : string) :
  fields (a +:+ String ";" b) = fields a ++ fields b.
Proof. unfold fields. rewrite strings_Split_app_all. apply filter_app. Qed.

Lemma fields_single (e : string) :
  e <> EmptyString -> contains ";" e = false -> fields e = [e].
Proof.
  intros Hne He. unfold fields. rewrite strings_Split_no_sep by exact He.
  rewrite filter_cons_True by exact Hne. reflexivity.
Qed.

Lemma parseKeyValues_entries_app (l1 l2 : list string) :
  forall m : gmap string string,
    parseKeyValues_entries (l1 ++ l2) m
    = parseKeyValues_entries l1 m ≫= parseKeyValues_entries l2.
Proof.
  induction l1 as [|e l1 IH]; intros m; [reflexivity|].
  cbn [app parseKeyValues_entries].
  destruct (index (strings_Split e "=") 0) as [k|p]; [|reflexivity].
  destruct (index (strings_Split e "=") 1) as [v|p]; [|reflexivity].
  cbn [mbind Result_bind]. apply IH.
Qed.

(** X4. A field [k=v] appended after a [;] to a value that parses adds the
    entry for [k] to the map, over an earlier one for the same key and with
    the other entries as they were ([k] and [v] without [;] and [=]). *)
Theorem parseKeyValues_append_field (s k v : string) (m : gmap string string) :
  parseKeyValues s = Ok m ->
  contains ";" k = false -> contains "=" k = false ->
  contains ";" v = false -> contains "=" v = false ->
  parseKeyValues (s +:+ ";" +:+ k +:+ "=" +:+ v) = Ok (<[k := v]> m).
Proof.
  intros Hs Hk1 Hk2 Hv1 Hv2. unfold parseKeyValues in *.
  rewrite strings_FieldsFunc_fields in *.
  change (s +:+ ";" +:+ k +:+ "=" +:+ v) with (s +:+ String ";" (k +:+ String "=" v)).
  rewrite fields_app, parseKeyValues_entries_app, Hs. cbn [mbind Result_bind].
  rewrite fields_single.
  - cbn [parseKeyValues_entries].
    rewrite strings_Split_app, strings_Split_no_sep by assumption. reflexivity.
  - destruct k; discriminate.
  - rewrite contains_app. cbn [contains]. rewrite Hk1, Hv1. reflexivity.
Qed.

Lemma parseKeyValues_append_field_witness :
  parseKeyValues ("dh=AAA;salt=BBB" +:+ ";" +:+ "dh" +:+ "=" +:+ "CCC")
  = Ok (<["dh" := "CCC"]> {["dh" := "AAA"; "salt" := "BBB"]}).
Proof.
  apply (parseKeyValues_append_field "dh=AAA;salt=BBB" "dh" "CCC");
    vm_compute; reflexivity.
Defined.

Lemma strings_Split_pieces_no_sep (s : string) (sep : ascii) :
  Forall (fun e => contains sep e = false) (strings_Split s sep).
Proof.
  induction s as [|c s IH]; cbn [strings_Split]; [repeat constructor|].
  destruct (Ascii.eqb c sep) eqn:Hc; [constructor; [reflexivity|exact IH]|].
  destruct (strings_Split s sep) as [|part parts]; [repeat constructor; cbn; rewrite Hc; reflexivity|].
  inversion IH as [|? ? Hpart Hparts]; subst.
  constructor; [cbn [contains]; rewrite Hc, Hpart; reflexivity|exact Hparts].
Qed.

(** The pieces of a string have no character that the string has not. *)
Lemma strings_Split_pieces_without (d : ascii) (s : string) (sep : ascii) :
  contains d s = false -> Forall (fun e => contains d e = false) (strings_Split s sep).
Proof.
  induction s as [|c s IH]; cbn [strings_Split contains]; [repeat constructor|].
  intros [Hc Hs]%orb_false_iff. specialize (IH Hs).
  destruct (Ascii.eqb c sep); [constructor; [reflexivity|exact IH]|].
  destruct (strings_Split s sep) as [|part parts];
    [repeat constructor; cbn; rewrite Hc; reflexivity|].
  inversion IH as [|? ? Hpart Hparts]; subst.
  constructor; [cbn [contains]; rewrite Hc, Hpart; reflexivity|exact Hparts].
Qed.

Lemma index_elem_of {A} (l : list A) (i : Z) (x : A) : index l i = Ok x -> x ∈ l.
Proof.
  unfold index. destruct ((0 <=? i) && (i <? len l)); [|discriminate].
  destruct (l !! Z.to_nat i) as [y|] eqn:Hy; [|discriminate].
  intros [= <-]. eapply list_elem_of_lookup_2. exact Hy.
Qed.

Lemma parseKeyValues_entries_clean (entries : list string) :
  forall m m' : gmap string string,
    Forall (fun e => contains ";" e = false) entries ->
    map_Forall (fun k v => (contains "=" k = false /\ contains ";" k = false) /\
                           (contains "=" v = false /\ contains ";" v = false)) m ->
    parseKeyValues_entries entries m = Ok m' ->
    map_Forall (fun k v => (contains "=" k = false /\ contains ";" k = false) /\
                           (contains "=" v = false /\ contains ";" v = false)) m'.
Proof.
  induction entries as [|e entries IH]; intros m m' Hall Hm Hrun.
  - injection Hrun as <-. exact Hm.
  - inversion Hall as [|? ? He Hrest]; subst. cbn [parseKeyValues_entries] in Hrun.
    destruct (index (strings_Split e "=") 0) as [k|p] eqn:Hk; [|discriminate].
    destruct (index (strings_Split e "=") 1) as [v|p] eqn:Hv; [|discriminate].
    cbn [mbind Result_bind] in Hrun.
    apply (IH (<[k := v]> m) m' Hrest); [|exact Hrun].
    apply map_Forall_insert_2; [|exact Hm].
    pose proof (strings_Split_pieces_no_sep e "=") as Heq.
    pose proof (strings_Split_pieces_without ";" e "=" He) as Hsemi.
    rewrite Forall_forall in Heq, Hsemi.
    apply index_elem_of in Hk, Hv. auto.
Qed.

(** X5. In a map that [parseKeyValues] returns no key and no value has an
    [=] or a [;] in it. *)
Theorem parseKeyValues_no_separators (values k v : string) (m : gmap string string) :
  parseKeyValues values = Ok m -> m !! k = Some v ->
  (contains "=" k = false /\ contains ";" k = false) /\
  (contains "=" v = false /\ contains ";" v = false).
Proof.
  intros Hrun Hkv. unfold parseKeyValues in Hrun.
  rewrite strings_FieldsFunc_fields in Hrun.
  eapply (parseKeyValues_entries_clean _ ∅ m); [| |exact Hrun|exact Hkv].
  - unfold fields. apply Forall_forall. intros e [_ He]%list_elem_of_filter.
    pose proof (strings_Split_pieces_no_sep values ";") as Hall.
    rewrite Forall_forall in Hall. apply Hall. exact He.
  - apply map_Forall_empty.
Qed.

Lemma parseKeyValues_no_separators_witness :
  (contains "=" "dh" = false /\ contains ";" "dh" = false) /\
  (contains "=" "AAA" = false /\ contains ";" "AAA" = false).
Proof.
  apply (parseKeyValues_no_separators "dh=AAA=;salt=BBB" "dh" "AAA"
           {["dh" := "AAA"; "salt" := "BBB"]}); vm_compute; reflexivity.
Defined.

(** * Further properties of [encodedValue] *)

(** X6. For a header that the request does not have, [encodedValue] returns
    no text and the error "Value <key> not found in header <name>"; it does
    not panic. *)
Theorem encodedValue_absent_header (header : gmap string string) (name key : string) :
  header !! name = None ->
  encodedValue header name key
  = Ok (EmptyString, Some ("Value " +:+ key +:+ " not found in header " +:+ name)).
Proof.
  intros Habsent. unfold encodedValue, Header_Get. rewrite Habsent. cbn [default].
  change (parseKeyValues (id EmptyString)) with (parseKeyValues EmptyString).
  replace (parseKeyValues EmptyString) with (Ok (∅ : gmap string string))
    by (vm_compute; reflexivity).
  cbn [mbind Result_bind]. rewrite lookup_empty. reflexivity.
Qed.

Lemma encodedValue_absent_header_witness :
  encodedValue {["Crypto-Key" := "dh=QUJD"]} "Encryption" "salt"
  = Ok (EmptyString, Some "Value salt not found in header Encryption").
Proof.
  apply (encodedValue_absent_header {["Crypto-Key" := "dh=QUJD"]} "Encryption" "salt").
  vm_compute. reflexivity.
Defined.

(** X7. What [encodedValue] returns is either a text over the alphabet with
    no error, or an error with the empty text. *)
Theorem encodedValue_text_or_error (header : gmap string string) (name key text : string)
    (err : option error) :
  encodedValue header name key = Ok (text, err) ->
  (err = None /\ Forall (fun c => c ∈ z85digits) (list_byte_of_string text))
  \/ (err <> None /\ text = EmptyString).
Proof.
  unfold encodedValue.
  destruct (parseKeyValues (Header_Get header name)) as [m|p]; [|discriminate].
  cbn [mbind Result_bind].
  destruct (m !! key) as [value|]; [|intros [= <- <-]; right; split; [discriminate|reflexivity]].
  destruct (base64_RawURLEncoding_DecodeString value) as [bytes [e|]].
  - intros [= <- <-]. right. split; [discriminate|reflexivity].
  - rewrite encode85_total. cbn [mbind Result_bind]. intros [= <- <-]. left.
    split; [reflexivity|].
    rewrite list_byte_of_string_of_list_byte. apply encode85_spec_alphabet.
Qed.

Lemma encodedValue_text_or_error_witness :
  Forall (fun c => c ∈ z85digits) (list_byte_of_string "6@}s").
Proof.
  destruct (encodedValue_text_or_error {["Crypto-Key" := "dh=QUJD"]} "Crypto-Key" "dh"
              "6@}s" None) as [[_ H]|[H _]].
  - vm_compute. reflexivity.
  - exact H.
  - contradiction H. reflexivity.
Defined.


Lemma encodedValue_panic (header : gmap string string) (name key : string) :
  Exists (fun e => contains "=" e = false) (fields (Header_Get header name)) ->
  encodedValue header name key = Panic (IndexOutOfRange 1 1).
Proof.
  intros Hex. unfold encodedValue. rewrite (parseKeyValues_panic _ Hex). reflexivity.
Qed.

(** * Further properties of the handler *)

Lemma payload_px_content (request : Request) (key : string) :
  is_Some (content (payload_px request) !! key) -> key = "p" \/ key = "x".
Proof.
  unfold payload_px. cbv zeta.
  destruct (3 <? len (strings_Split (URL_Path request) "/"));
    cbn [Custom content ContentAvailable MutableContent Alert NewPayload];
    intros [v Hv].
  - destruct (decide (key = "x")) as [->|Hx]; [auto|].
    rewrite lookup_insert_ne in Hv by congruence.
    destruct (decide (key = "p")) as [->|Hp]; [auto|].
    rewrite lookup_insert_ne, lookup_empty in Hv by congruence. discriminate.
  - destruct (decide (key = "p")) as [->|Hp]; [auto|].
    rewrite lookup_insert_ne, lookup_empty in Hv by congruence. discriminate.
Qed.

Lemma payload_px_aps (request : Request) :
  aps_Alert (payload_px request) = alert_text /\
  aps_MutableContent (payload_px request) = 1 /\
  aps_ContentAvailable (payload_px request) = 1.
Proof.
  unfold payload_px. cbv zeta.
  destruct (3 <? len (strings_Split (URL_Path request) "/")); auto.
Qed.

(** X8. In every notification that the handler pushes the priority is 5
    when the [Urgency] header is "very-low" or "low" and 10 otherwise, also
    when there is no such header. *)
Theorem handler_priority (now : Z) (Push : Notification -> Response * option error)
    (request : Request) (o : Outcome) (n : Notification) :
  handler now Push request = Ok o -> pushed o = Some n ->
  Priority n
  = if bool_decide (Header_Get (Header request) "Urgency" ∈ ["very-low"; "low"])
    then PriorityLow else PriorityHigh.
Proof.
  intros Hrun Hpushed.
  destruct (handler_pushed_inv now Push request o n Hrun Hpushed)
    as (target & k & s & _ & _ & _ & _ & ->).
  cbn [notification_for Priority].
  destruct (decide (Header_Get (Header request) "Urgency" = "very-low")) as [->|Hvl];
    [reflexivity|].
  destruct (decide (Header_Get (Header request) "Urgency" = "low")) as [->|Hl];
    [reflexivity|].
  rewrite bool_decide_eq_false_2; [reflexivity|].
  intros Hin. apply list_elem_of_In in Hin. simpl in Hin.
  destruct Hin as [H|[H|[]]]; congruence.
Qed.

Lemma handler_priority_witness :
  exists (o : Outcome) (n : Notification),
    handler 0 push_sent
      (aesgcm_request "/relay-to/abc123" "dh=QUJD" "salt=QUJD" {["Urgency" := "low"]})
    = Ok o /\ pushed o = Some n /\ Priority n = PriorityLow.
Proof.
  destruct (handler_dispatches 0 push_sent
              (aesgcm_request "/relay-to/abc123" "dh=QUJD" "salt=QUJD" {["Urgency" := "low"]})
              "abc123" "6@}s" "6@}s") as (o & Hrun & Hpushed);
    [reflexivity|reflexivity|run_encodedValue|run_encodedValue|].
  eexists. eexists. split; [exact Hrun|]. split; [exact Hpushed|].
  rewrite (handler_priority 0 push_sent _ o _ Hrun Hpushed).
  vm_compute. reflexivity.
Defined.

(** X9. In every notification that the handler pushes the collapse
    identifier is the text of the [Topic] header, empty when there is none,
    and the topic is "dev.noppe.snowfox". *)
Theorem handler_collapse_id (now : Z) (Push : Notification -> Response * option error)
    (request : Request) (o : Outcome) (n : Notification) :
  handler now Push request = Ok o -> pushed o = Some n ->
  CollapseID n = Header_Get (Header request) "Topic" /\ Topic n = "dev.noppe.snowfox".
Proof.
  intros Hrun Hpushed.
  destruct (handler_pushed_inv now Push request o n Hrun Hpushed)
    as (target & k & s & _ & _ & _ & _ & ->).
  split; reflexivity.
Qed.

Lemma handler_collapse_id_witness :
  exists (o : Outcome) (n : Notification),
    handler 0 push_sent
      (aesgcm_request "/relay-to/abc123" "dh=QUJD" "salt=QUJD" {["Topic" := "mentions"]})
    = Ok o /\ pushed o = Some n /\ CollapseID n = "mentions".
Proof.
  destruct (handler_dispatches 0 push_sent
              (aesgcm_request "/relay-to/abc123" "dh=QUJD" "salt=QUJD" {["Topic" := "mentions"]})
              "abc123" "6@}s" "6@}s") as (o & Hrun & Hpushed);
    [reflexivity|reflexivity|run_encodedValue|run_encodedValue|].
  eexists. eexists. split; [exact Hrun|]. split; [exact Hpushed|].
  rewrite (proj1 (handler_collapse_id 0 push_sent _ o _ Hrun Hpushed)).
  vm_compute. reflexivity.
Defined.

(** X10. The payload of every notification that the handler pushes has the
    trumpet as alert, mutable-content and content-available set to 1, the
    custom field p with the [encode85] text of the request's body (also of an
    empty body), and no custom field other than p, x, k and s. *)
Theorem handler_payload (now : Z) (Push : Notification -> Response * option error)
    (request : Request) (o : Outcome) (n : Notification) :
  handler now Push request = Ok o -> pushed o = Some n ->
  aps_Alert (Payload_of n) = alert_text /\
  aps_MutableContent (Payload_of n) = 1 /\
  aps_ContentAvailable (Payload_of n) = 1 /\
  (exists p : string,
     encode85 (Body request) = Ok p /\ content (Payload_of n) !! "p" = Some p) /\
  (forall key : string,
     is_Some (content (Payload_of n) !! key) -> key ∈ ["p"; "x"; "k"; "s"]).
Proof.
  intros Hrun Hpushed.
  destruct (handler_pushed_inv now Push request o n Hrun Hpushed)
    as (target & k & s & _ & _ & _ & _ & ->).
  cbn [notification_for Payload_of].
  destruct (payload_px_aps request) as (Ha & Hm & Hc).
  split; [exact Ha|]. split; [exact Hm|]. split; [exact Hc|]. split.
  - exists (string_of_list_byte (encode85_spec (Body request))).
    split; [apply encode85_total|].
    destruct (content_k_s k s (payload_px request)) as (_ & _ & _ & ->).
    unfold payload_px. cbv zeta.
    destruct (3 <? len (strings_Split (URL_Path request) "/")); reflexivity.
  - intros key Hkey. cbn [Custom content] in Hkey.
    destruct (decide (key = "s")) as [->|Hs]; [set_solver|].
    rewrite lookup_insert_ne in Hkey by congruence.
    destruct (decide (key = "k")) as [->|Hk]; [set_solver|].
    rewrite lookup_insert_ne in Hkey by congruence.
    destruct (payload_px_content request key Hkey) as [->| ->]; set_solver.
Qed.

Lemma handler_payload_witness :
  exists (o : Outcome) (n : Notification),
    handler 0 push_sent (aesgcm_request "/relay-to/abc123" "dh=QUJD" "salt=QUJD" ∅) = Ok o /\
    pushed o = Some n /\ content (Payload_of n) !! "p" = Some "6@}s".
Proof.
  destruct (handler_dispatches 0 push_sent
              (aesgcm_request "/relay-to/abc123" "dh=QUJD" "salt=QUJD" ∅)
              "abc123" "6@}s" "6@}s") as (o & Hrun & Hpushed);
    [reflexivity|reflexivity|run_encodedValue|run_encodedValue|].
  eexists. eexists. split; [exact Hrun|]. split; [exact Hpushed|].
  destruct (handler_payload 0 push_sent _ o _ Hrun Hpushed)
    as (_ & _ & _ & (p & Hp & ->) & _).
  vm_compute in Hp. injection Hp as <-. reflexivity.
Defined.



(** X12. A request that the handler answers without pushing gets no
    [Location] and status 415 or 500: 415 when the path has its three
    components and the encoding is not "aesgcm", 500 otherwise. *)
Theorem handler_rejection (now : Z) (Push : Notification -> Response * option error)
    (request : Request) (o : Outcome) :
  handler now Push request = Ok o -> pushed o = None ->
  location o = None /\
  status o
  = if bool_decide (3 <= len (strings_Split (URL_Path request) "/")
                    /\ Header_Get (Header request) "Content-Encoding" <> "aesgcm")
    then 415 else 500.
Proof.
  intros Hrun Hpushed.
  destruct (Z.lt_ge_cases (len (strings_Split (URL_Path request) "/")) 3) as [Hlt|Hge].
  { rewrite (handler_invalid_path now Push request Hlt) in Hrun. injection Hrun as <-.
    split; [reflexivity|]. rewrite bool_decide_eq_false_2 by lia. reflexivity. }
  destruct (components_target request Hge) as (target & Ht).
  rewrite (handler_from_switch now Push request target Ht) in Hrun.
  destruct (decide (Header_Get (Header request) "Content-Encoding" = "aesgcm"))
    as [Henc|Henc].
  - rewrite bool_decide_eq_false_2 by tauto.
    destruct (encodedValue (Header request) "Crypto-Key" "dh")
      as [[k [err|]]|p]; cbn [mbind Result_bind] in Hrun;
      [injection Hrun as <-; auto| |discriminate].
    destruct (encodedValue (Header request) "Encryption" "salt")
      as [[s [err|]]|p]; cbn [mbind Result_bind] in Hrun;
      [injection Hrun as <-; auto| |discriminate].
    injection Hrun as <-. rewrite handler_push_pushed in Hpushed. discriminate.
  - rewrite bool_decide_eq_true_2 by tauto. injection Hrun as <-. auto.
Qed.

Lemma handler_rejection_witness :
  exists o : Outcome,
    handler 0 push_sent (aesgcm_request "/relay-to/abc123" "dh=!!!!" "salt=QUJD" ∅) = Ok o /\
    location o = None /\ status o = 500.
Proof.
  assert (handler 0 push_sent (aesgcm_request "/relay-to/abc123" "dh=!!!!" "salt=QUJD" ∅)
          = Ok (reply 500 ("Error retrieving public key: "
                           +:+ "illegal base64 data at input byte 0" +:+ nl))) as Hrun
    by (vm_compute; reflexivity).
  eexists. split; [exact Hrun|].
  destruct (handler_rejection 0 push_sent _ _ Hrun eq_refl) as [Hloc Hstatus].
  split; [exact Hloc|]. rewrite Hstatus. vm_compute. reflexivity.
Defined.



(** X14. An "aesgcm" request routed to the handler with a field without [=]
    in its [Crypto-Key] header makes the handler panic, whatever else the
    request holds: nothing is answered and nothing is pushed. *)
Theorem handler_panics_on_crypto_key (now : Z)
    (Push : Notification -> Response * option error) (request : Request) :
  routed request ->
  Header_Get (Header request) "Content-Encoding" = "aesgcm" ->
  Exists (fun e => contains "=" e = false)
    (fields (Header_Get (Header request) "Crypto-Key")) ->
  handler now Push request = Panic (IndexOutOfRange 1 1).
Proof.
  intros Hr Henc Hex.
  destruct (components_target request (routed_len request Hr)) as (target & Ht).
  rewrite (handler_from_switch now Push request target Ht).
  destruct (decide (Header_Get (Header request) "Content-Encoding" = "aesgcm"));
    [|contradiction].
  rewrite (encodedValue_panic _ _ _ Hex). reflexivity.
Qed.

Lemma handler_panics_on_crypto_key_witness :
  handler 0 push_sent
    (aesgcm_request "/relay-to/abc123" "dh=QUJD;p256ecdsa" "salt=QUJD" ∅)
  = Panic (IndexOutOfRange 1 1).
Proof.
  apply (handler_panics_on_crypto_key 0 push_sent
           (aesgcm_request "/relay-to/abc123" "dh=QUJD;p256ecdsa" "salt=QUJD" ∅)).
  - reflexivity.
  - reflexivity.
  - vm_compute. apply Exists_cons_tl. apply Exists_cons_hd. reflexivity.
Defined.

(** X15. The [Encryption] header is read only after the public key: when
    the [Crypto-Key] value parses and its dh sub-field is missing or does not
    decode, the answer is the public-key error whatever the [Encryption]
    header is, also one on which the parser would panic. *)
Theorem handler_public_key_first (now : Z)
    (Push : Notification -> Response * option error) (request : Request)
    (text err : string) :
  routed request ->
  Header_Get (Header request) "Content-Encoding" = "aesgcm" ->
  encodedValue (Header request) "Crypto-Key" "dh" = Ok (text, Some err) ->
  handler now Push request
  = Ok {| status := 500; location := None;
          body := "Error retrieving public key: " +:+ err +:+ nl; pushed := None |}.
Proof.
  intros Hr Henc Hdh.
  destruct (components_target request (routed_len request Hr)) as (target & Ht).
  apply (handler_public_key_error now Push request target text err Ht Henc Hdh).
Qed.

Lemma handler_public_key_first_witness :
  handler 0 push_sent (aesgcm_request "/relay-to/abc123" "p256ecdsa=QUJD" "salt" ∅)
  = Ok {| status := 500; location := None;
          body := "Error retrieving public key: "
                  +:+ "Value dh not found in header Crypto-Key" +:+ nl;
          pushed := None |}.
Proof.
  apply (handler_public_key_first 0 push_sent
           (aesgcm_request "/relay-to/abc123" "p256ecdsa=QUJD" "salt" ∅) EmptyString).
  - reflexivity.
  - reflexivity.
  - vm_compute. reflexivity.
Defined.
